(** * chatapp.py: conversation store, read tracking and message projection

    A shallow embedding of the core of [src/chatapp.py] (a Flask chat
    server that translates every message for its recipient) together with
    the properties of its conversation addressing, unread accounting and
    per-viewer projection.

    Modelling choices:
    - Python [str] is [string]; on UTF-8 encoded text the byte-wise
      lexicographic order of [String.ltb] coincides with Python's
      code-point order, which is what [sorted] uses;
    - Python [int] is [Z];
    - [users] and [conversations] are iterated by the dashboard, so they
      are insertion-ordered dictionaries ([PyDict]); [user_seen] is only
      ever looked up by key and is a [gmap];
    - the three module-level dictionaries form the [State], threaded
      explicitly; a raised exception is a [Raise] result, and whatever was
      mutated before the raise stays mutated;
    - the translation provider ([client.models.generate_content]) is an
      argument of the handlers that call it. *)

From Stdlib Require Import ZArith Ascii String List.
From stdpp Require Import base option list strings gmap fin_maps.
From stdpp Require Import relations sorting.

Local Open Scope Z_scope.

(** ** Insertion-ordered dictionaries *)

Module PyDict.
Section defs.
Context {K V : Type} `{EqDecision K}.

Definition t := list (K * V).

Definition empty : t := [].

(** [d.get(k)] *)
Fixpoint get (k : K) (d : t) : option V :=
  match d with
  | [] => None
  | (k', v) :: d' => if decide (k = k') then Some v else get k d'
  end.

(** [d[k] = v]: an existing key keeps its position, a new one goes last *)
Fixpoint set (k : K) (v : V) (d : t) : t :=
  match d with
  | [] => [(k, v)]
  | (k', v') :: d' =>
      if decide (k = k') then (k, v) :: d' else (k', v') :: set k v d'
  end.

(** [k in d] *)
Definition mem (k : K) (d : t) : bool := bool_decide (is_Some (get k d)).

(** [d.keys()] and [d.items()], in insertion order *)
Definition keys (d : t) : list K := d.*1.
Definition items (d : t) : list (K * V) := d.

End defs.
Global Arguments t : clear implicits.
End PyDict.

(** ** The fragment of Python's [str] methods the program uses

  [lower] and [strip] are given on ASCII text: letters [A]-[Z] are
  folded, and the characters Python counts as whitespace below 128 are
  stripped. *)

Module Str.
Definition lower_ascii (c : ascii) : ascii :=
  let n := nat_of_ascii c in
  if (Nat.leb 65 n && Nat.leb n 90)%bool then ascii_of_nat (n + 32) else c.

Fixpoint lower (s : string) : string :=
  match s with
  | EmptyString => EmptyString
  | String c s' => String (lower_ascii c) (lower s')
  end.

Definition is_space (c : ascii) : bool :=
  let n := nat_of_ascii c in
  ((Nat.leb 9 n && Nat.leb n 13) || (Nat.leb 28 n && Nat.leb n 32))%bool.

Fixpoint lstrip (s : string) : string :=
  match s with
  | EmptyString => EmptyString
  | String c s' => if is_space c then lstrip s' else s
  end.

Fixpoint rstrip (s : string) : string :=
  match s with
  | EmptyString => EmptyString
  | String c s' =>
      match rstrip s' with
      | EmptyString => if is_space c then EmptyString else String c EmptyString
      | r => String c r
      end
  end.

Definition strip (s : string) : string := lstrip (rstrip s).

(** [needle in hay] *)
Fixpoint contains (needle hay : string) : bool :=
  String.prefix needle hay ||
  match hay with
  | EmptyString => false
  | String _ hay' => contains needle hay'
  end.

(** truthiness of a string: [bool(s)] *)
Definition truthy (s : string) : bool := negb (String.eqb s "").

(** [a or b] on strings *)
Definition or (a b : string) : string := if truthy a then a else b.

End Str.

(** [list.sort(key=...)]: a stable sort on string keys.  Stability and the
  totality of the order fix the result, so insertion from the right
  stands for Python's own algorithm. *)
Section stable_sort.
Context {A : Type} (key : A → string).

Fixpoint sort_insert (x : A) (l : list A) : list A :=
  match l with
  | [] => [x]
  | y :: l' =>
      if String.ltb (key y) (key x) then y :: sort_insert x l'
      else x :: l
  end.

Definition sort_by_key (l : list A) : list A := foldr sort_insert [] l.
End stable_sort.

(** ** Data model *)

(** A value of [users]: [{"display_name": ..., "language": ...}]. *)
Record User := mkUser {
  display_name : string;
  language : string;
}.

(** An entry of a conversation log, as [save_message] builds it. *)
Record Message := mkMessage {
  sender : string;
  recipient : string;
  original_text : string;
  translated_text : string;
}.

(** An element of the list [serialize_messages] returns. *)
Record ViewEntry := mkViewEntry {
  is_self : bool;
  sender_label : string;
  primary_text : string;
  secondary_label : string;
  secondary_text : string;
  created_by : string;
}.

(** An element of the dashboard's [matches] and [recent_contacts]. *)
Record DashboardItem := mkDashboardItem {
  item_username : string;
  item_display_name : string;
  item_language : string;
  item_unread_count : Z;
}.

Record DashboardPayload := mkDashboardPayload {
  matches : list DashboardItem;
  recent_contacts : list DashboardItem;
}.

Abbreviation ConvKey := (string * string)%type.

(** The module-level dictionaries [users], [conversations], [user_seen]. *)
Record State := mkState {
  users : PyDict.t string User;
  conversations : PyDict.t ConvKey (list Message);
  user_seen : gmap string (gmap ConvKey Z);
}.

Definition initial_state : State :=
  {| users := PyDict.empty; conversations := PyDict.empty; user_seen := ∅ |}.

Definition with_users (us : PyDict.t string User) (st : State) : State :=
  {| users := us;
     conversations := conversations st;
     user_seen := user_seen st |}.

Definition with_conversations
    (cs : PyDict.t ConvKey (list Message)) (st : State) : State :=
  {| users := users st; conversations := cs; user_seen := user_seen st |}.

Definition with_user_seen
    (seen : gmap string (gmap ConvKey Z)) (st : State) : State :=
  {| users := users st; conversations := conversations st; user_seen := seen |}.

(** ** Exceptions and the state-and-exception monad *)

Inductive exn :=
| KeyError (key : string)
| IndexError
| ProviderError (diagnostic : string).

Inductive result (A : Type) :=
| Ok (a : A)
| Raise (e : exn).
Global Arguments Ok {A} a.
Global Arguments Raise {A} e.

(** [str(exc)] *)
Definition exn_str (e : exn) : string :=
  match e with
  | KeyError key => "'" +:+ key +:+ "'"
  | IndexError => "list index out of range"
  | ProviderError diagnostic => diagnostic
  end.

Definition is_Ok {A} (r : result A) : Prop := ∃ a, r = Ok a.

(** A computation reads and writes the dictionaries and may raise; what it
    wrote before raising is kept. *)
Definition M (A : Type) : Type := State → result A * State.

Definition ret {A} (a : A) : M A := λ st, (Ok a, st).

Definition raise {A} (e : exn) : M A := λ st, (Raise e, st).

Definition bind {A B} (m : M A) (k : A → M B) : M B := λ st,
  match m st with
  | (Ok a, st') => k a st'
  | (Raise e, st') => (Raise e, st')
  end.

(** a function that cannot raise *)
Definition total {A} (f : State → A * State) : M A := λ st,
  let '(a, st') := f st in (Ok a, st').

(** a function that changes the state and returns [None] *)
Definition modify (f : State → State) : M unit := λ st, (Ok tt, f st).

(** a read of the current state *)
Definition gets {A} (f : State → A) : M A := λ st, (Ok (f st), st).

(** [try: body except Exception as exc: handler(exc)] *)
Definition try_except {A} (body : M A) (handler : exn → M A) : M A := λ st,
  match body st with
  | (Ok a, st') => (Ok a, st')
  | (Raise e, st') => handler e st'
  end.

Global Instance M_ret : MRet M := @ret.
Global Instance M_bind : MBind M := λ A B k m, bind m k.
Global Instance M_fmap : FMap M := λ A B f m, bind m (λ a, ret (f a)).

(** [len(l)] *)
Definition len {A} (l : list A) : Z := Z.of_nat (length l).

(** ** The core functions of [chatapp.py] *)

(** [tuple(sorted((user_a, user_b)))]: the sort exchanges the two exactly
    when the second is smaller than the first. *)
Definition conversation_key (user_a user_b : string) : ConvKey :=
  if String.ltb user_b user_a then (user_b, user_a) else (user_a, user_b).

(** [conversations.get(key, [])] *)
Definition conversation_log (key : ConvKey) (st : State) : list Message :=
  default [] (PyDict.get key (conversations st)).

(** [users[key]] *)
Definition users_getitem (key : string) : M User := λ st,
  match PyDict.get key (users st) with
  | Some data => (Ok data, st)
  | None => (Raise (KeyError key), st)
  end.

(** [user_seen.setdefault(username, {})]: the inner dictionary is returned
    by reference; the callers below write their update back. *)
Definition ensure_user_seen (username : string) (st : State)
    : gmap ConvKey Z * State :=
  match user_seen st !! username with
  | Some seen => (seen, st)
  | None => (∅, with_user_seen (<[username := ∅]> (user_seen st)) st)
  end.

Definition mark_conversation_seen (viewer partner_key : string) (st : State)
    : State :=
  let key := conversation_key viewer partner_key in
  let total := len (conversation_log key st) in
  let '(seen, st1) := ensure_user_seen viewer st in
  with_user_seen (<[viewer := <[key := total]> seen]> (user_seen st1)) st1.

Definition unread_count (username partner_key : string) (st : State)
    : Z * State :=
  let key := conversation_key username partner_key in
  let total := len (conversation_log key st) in
  let '(seen_marks, st1) := ensure_user_seen username st in
  let seen := default 0 (seen_marks !! key) in
  (Z.max (total - seen) 0, st1).

(** [conversations.setdefault(key, [])] followed by [bucket.append(entry)]
    on the stored list is one write of the extended list under [key]. *)
Definition save_message
    (sender recipient original_text translated_text : string) (st : State)
    : Message * State :=
  let key := conversation_key sender recipient in
  let entry := mkMessage sender recipient original_text translated_text in
  let bucket := conversation_log key st ++ [entry] in
  let st1 := with_conversations (PyDict.set key bucket (conversations st)) st in
  let '(seen, st2) := ensure_user_seen sender st1 in
  (entry,
   with_user_seen
     (<[sender := <[key := len bucket]> seen]> (user_seen st2)) st2).

(** The body of the loop of [serialize_messages].  [users[entry["sender"]]]
    is evaluated twice for a message of the other party, first for the
    label and then for [sender_label]; each evaluation reads the
    dictionary as it is when the projection runs. *)
Definition view_entry (viewer : string) (partner_data : User)
    (entry : Message) : M ViewEntry :=
  let is_self := bool_decide (sender entry = viewer) in
  '(primary_text, secondary_label, secondary_text) ←
    (if is_self then
       mret (original_text entry,
             "Translated for " +:+ display_name partner_data
               +:+ " (" +:+ language partner_data +:+ "):",
             translated_text entry)
     else
       sender_data ← users_getitem (sender entry);
       mret (Str.or (translated_text entry) (original_text entry),
             "Original message in " +:+ language sender_data +:+ ":",
             original_text entry));
  sender_label ←
    (if is_self then mret "You"
     else display_name <$> users_getitem (sender entry));
  mret {| is_self := is_self;
          sender_label := sender_label;
          primary_text := primary_text;
          secondary_label := secondary_label;
          secondary_text := secondary_text;
          created_by := sender entry |}.

(** The [for entry in raw_messages] loop, appending to [messages_for_view]. *)
Fixpoint view_entries (viewer : string) (partner_data : User)
    (raw_messages : list Message) : M (list ViewEntry) :=
  match raw_messages with
  | [] => mret []
  | entry :: rest =>
      view ← view_entry viewer partner_data entry;
      views ← view_entries viewer partner_data rest;
      mret (view :: views)
  end.

Definition serialize_messages (viewer partner_key : string) (mark_seen : bool)
    : M (list ViewEntry) :=
  let key := conversation_key viewer partner_key in
  raw_messages ← gets (conversation_log key);
  partner_data ← users_getitem partner_key;
  messages_for_view ← view_entries viewer partner_data raw_messages;
  (if mark_seen then modify (mark_conversation_seen viewer partner_key)
   else mret tt);;
  mret messages_for_view.

(** The first loop of [build_dashboard_payload], over [users.items()]. *)
Fixpoint dashboard_matches (user query_lower : string)
    (items : list (string * User)) : M (list DashboardItem) :=
  match items with
  | [] => mret []
  | (username, data) :: rest =>
      if bool_decide (username = user) then
        dashboard_matches user query_lower rest
      else if negb (Str.truthy query_lower)
              || Str.contains query_lower (Str.lower (display_name data)) then
        unread ← total (unread_count user username);
        more ← dashboard_matches user query_lower rest;
        mret (mkDashboardItem username (display_name data) (language data)
                unread :: more)
      else dashboard_matches user query_lower rest
  end.

(** The second loop, over [conversations.keys()], with the local set
    [seen_partners]. *)
Fixpoint dashboard_recent (user : string) (keys : list ConvKey)
    (seen_partners : gset string) : M (list DashboardItem) :=
  match keys with
  | [] => mret []
  | key :: rest =>
      if bool_decide (user = key.1) || bool_decide (user = key.2) then
        let other := if bool_decide (key.1 ≠ user) then key.1 else key.2 in
        registered ← gets (λ st, PyDict.mem other (users st));
        if registered && negb (bool_decide (other ∈ seen_partners)) then
          data ← users_getitem other;
          unread ← total (unread_count user other);
          more ← dashboard_recent user rest ({[other]} ∪ seen_partners);
          mret (mkDashboardItem other (display_name data) (language data)
                  unread :: more)
        else dashboard_recent user rest seen_partners
      else dashboard_recent user rest seen_partners
  end.

Definition by_display_name (item : DashboardItem) : string :=
  Str.lower (item_display_name item).

Definition build_dashboard_payload (user query : string)
    : M DashboardPayload :=
  let query_lower := Str.lower (Str.strip query) in
  items ← gets (λ st, PyDict.items (users st));
  found ← dashboard_matches user query_lower items;
  let matches := sort_by_key by_display_name found in
  keys ← gets (λ st, PyDict.keys (conversations st));
  recent ← dashboard_recent user keys ∅;
  let recent_contacts := sort_by_key by_display_name recent in
  mret {| matches := matches; recent_contacts := recent_contacts |}.

(** ** The translation provider *)

(** What [client.models.generate_content] does with a request: it raises,
    or it returns a response whose [text] is a string or [None]. *)
Inductive ProviderResult :=
| ProviderRaises (diagnostic : string)
| ProviderResponse (text : option string).

(** arguments: [contents] and [system_instruction] *)
Definition Provider : Type := string → string → ProviderResult.

Definition translate_message (generate_content : Provider)
    (message_text target_language : string) : M string :=
  match generate_content message_text
          ("Translate this message to " +:+ target_language
             +:+ ". Only return the translated text.") with
  | ProviderRaises diagnostic => raise (ProviderError diagnostic)
  | ProviderResponse text =>
      mret (match text with
            | Some t => if Str.truthy t then Str.strip t else message_text
            | None => message_text
            end)
  end.

(** ** The request handlers

    A handler receives the [username] entry of the caller's session cookie
    ([None] when absent) and returns it as it leaves it, next to the
    response.  A [Raise] out of a handler is an exception that reaches
    Flask. *)

Abbreviation Session := (option string).

Inductive Response :=
| Redirect (endpoint : string)
| JsonError (error : string) (status : Z)
| JsonMessage (message : ViewEntry)
| JsonMessages (messages : list ViewEntry)
| JsonDashboard (payload : DashboardPayload)
| RenderLogin (error : option string) (username_value language_value : string)
| RenderDashboard (current_user : User) (query : string)
    (initial_data : DashboardPayload)
| RenderChat (current_user : User) (partner_username : string)
    (partner : User) (messages : list ViewEntry)
| RenderSettings (current_user : User) (error success : option string).

Definition current_user (session : Session) : M (option string * Session) :=
  gets (λ st,
    match session with
    | Some username =>
        if Str.truthy username && PyDict.mem username (users st)
        then (Some username, session)
        else (None, None)
    | None => (None, None)
    end).

(** [users[key] = data] *)
Definition users_setitem (key : string) (data : User) : M unit :=
  modify (λ st, with_users (PyDict.set key data (users st)) st).

(** [messages[-1]] *)
Definition last_item {A} (l : list A) : M A :=
  match last l with
  | Some a => mret a
  | None => raise IndexError
  end.

Definition login (session : Session) (is_post : bool)
    (form_username form_language : string) : M (Session * Response) :=
  '(user, session) ← current_user session;
  match user with
  | Some _ => mret (session, Redirect "dashboard")
  | None =>
      if is_post then
        let username_value := Str.strip form_username in
        let language_value := Str.strip form_language in
        if negb (Str.truthy username_value) then
          mret (session,
                RenderLogin (Some "Please enter a username.")
                  username_value language_value)
        else
          let username_key := Str.lower username_value in
          record ← gets (λ st, PyDict.get username_key (users st));
          match record with
          | Some record =>
              let language' :=
                if Str.truthy language_value then language_value
                else language record in
              users_setitem username_key (mkUser username_value language');;
              total (ensure_user_seen username_key);;
              mret (Some username_key, Redirect "dashboard")
          | None =>
              if negb (Str.truthy language_value) then
                mret (session,
                      RenderLogin
                        (Some "Pick a preferred language for your first login.")
                        username_value language_value)
              else
                users_setitem username_key
                  (mkUser username_value language_value);;
                total (ensure_user_seen username_key);;
                mret (Some username_key, Redirect "dashboard")
          end
      else mret (session, RenderLogin None "" "")
  end.

Definition logout (session : Session) : M (Session * Response) :=
  mret (None, Redirect "login").

Definition dashboard (session : Session) (q : string)
    : M (Session * Response) :=
  '(user, session) ← current_user session;
  match user with
  | None => mret (session, Redirect "login")
  | Some user =>
      data ← build_dashboard_payload user q;
      me ← users_getitem user;
      mret (session, RenderDashboard me q data)
  end.

Definition dashboard_data (session : Session) (q : string)
    : M (Session * Response) :=
  '(user, session) ← current_user session;
  match user with
  | None => mret (session, JsonError "Not authenticated" 401)
  | Some user =>
      data ← build_dashboard_payload user q;
      mret (session, JsonDashboard data)
  end.

Definition chat (session : Session) (partner : string)
    : M (Session * Response) :=
  '(user, session) ← current_user session;
  match user with
  | None => mret (session, Redirect "login")
  | Some user =>
      let partner_key := Str.lower partner in
      registered ← gets (λ st, PyDict.mem partner_key (users st));
      if negb registered || bool_decide (partner_key = user) then
        mret (session, Redirect "dashboard")
      else
        messages_for_view ← serialize_messages user partner_key true;
        me ← users_getitem user;
        partner_data ← users_getitem partner_key;
        mret (session, RenderChat me partner_key partner_data messages_for_view)
  end.

Definition chat_messages (session : Session) (partner : string)
    : M (Session * Response) :=
  '(user, session) ← current_user session;
  match user with
  | None => mret (session, JsonError "Not authenticated" 401)
  | Some user =>
      let partner_key := Str.lower partner in
      registered ← gets (λ st, PyDict.mem partner_key (users st));
      if negb registered || bool_decide (partner_key = user) then
        mret (session, JsonError "Invalid conversation" 400)
      else
        messages ← serialize_messages user partner_key true;
        mret (session, JsonMessages messages)
  end.

(** The [try] block of [send_message]. *)
Definition send_message_body (generate_content : Provider)
    (user partner_key message_text : string) : M Response :=
  partner_data ← users_getitem partner_key;
  translated_text ←
    translate_message generate_content message_text (language partner_data);
  total (save_message user partner_key message_text translated_text);;
  views ← serialize_messages user partner_key false;
  view ← last_item views;
  mret (JsonMessage view).

(** [message] is [data.get("message")] of the posted JSON object, [None]
    when there is no such entry or no JSON body. *)
Definition send_message (generate_content : Provider) (session : Session)
    (partner : string) (message : option string) : M (Session * Response) :=
  '(user, session) ← current_user session;
  match user with
  | None => mret (session, JsonError "Not authenticated" 401)
  | Some user =>
      let partner_key := Str.lower partner in
      registered ← gets (λ st, PyDict.mem partner_key (users st));
      if negb registered || bool_decide (partner_key = user) then
        mret (session, JsonError "Invalid conversation" 400)
      else
        let message_text := Str.strip (default "" message) in
        if negb (Str.truthy message_text) then
          mret (session, JsonError "Type a message before sending." 400)
        else
          response ←
            try_except
              (send_message_body generate_content user partner_key message_text)
              (λ exc,
                 mret (JsonError
                         ("Could not translate your message: " +:+ exn_str exc)
                         500));
          mret (session, response)
  end.

Definition settings (session : Session) (is_post : bool)
    (form_language : string) : M (Session * Response) :=
  '(user, session) ← current_user session;
  match user with
  | None => mret (session, Redirect "login")
  | Some user =>
      '(error, success) ←
        (if is_post then
           let new_language := Str.strip form_language in
           if negb (Str.truthy new_language) then
             mret (Some "Please enter a language before saving.", None)
           else
             data ← users_getitem user;
             users_setitem user (mkUser (display_name data) new_language);;
             mret (None, Some "Language updated.")
         else mret (None, None));
      me ← users_getitem user;
      mret (session, RenderSettings me error success)
  end.

(** ** Reachable states *)

Inductive Request :=
| ReqLogin (is_post : bool) (form_username form_language : string)
| ReqLogout
| ReqDashboard (q : string)
| ReqDashboardData (q : string)
| ReqChat (partner : string)
| ReqChatMessages (partner : string)
| ReqSendMessage (partner : string) (message : option string)
| ReqSettings (is_post : bool) (form_language : string).

Definition handle (generate_content : Provider) (session : Session)
    (req : Request) : M (Session * Response) :=
  match req with
  | ReqLogin is_post u l => login session is_post u l
  | ReqLogout => logout session
  | ReqDashboard q => dashboard session q
  | ReqDashboardData q => dashboard_data session q
  | ReqChat partner => chat session partner
  | ReqChatMessages partner => chat_messages session partner
  | ReqSendMessage partner message =>
      send_message generate_content session partner message
  | ReqSettings is_post l => settings session is_post l
  end.

(** One request served, whatever the provider answers and whatever cookie
    the client presents. *)
Definition http_step (st st' : State) : Prop :=
  ∃ generate_content session req,
    (handle generate_content session req st).2 = st'.

(** States the server can be in: it starts with the three dictionaries
    empty and serves requests. *)
Definition reachable (st : State) : Prop := rtc http_step initial_state st.

(** One call of a core function, with any arguments, or one change of the
    user directory.  Every request is made of such calls. *)
Inductive core_step : State → State → Prop :=
| step_save sender recipient original translated st :
    core_step st (save_message sender recipient original translated st).2
| step_mark_seen viewer partner st :
    core_step st (mark_conversation_seen viewer partner st)
| step_unread viewer partner st :
    core_step st (unread_count viewer partner st).2
| step_list viewer partner mark_seen st :
    core_step st (serialize_messages viewer partner mark_seen st).2
| step_dashboard user q st :
    core_step st (build_dashboard_payload user q st).2
| step_ensure username st :
    core_step st (ensure_user_seen username st).2
| step_users us st :
    core_step st (with_users us st).

Definition core_reachable (st : State) : Prop :=
  rtc core_step initial_state st.

(** ** Observations used by the statements *)

(** The seen mark of [viewer] for [key]: [user_seen[viewer].get(key, 0)],
    and [0] as well while [viewer] has no entry in [user_seen]. *)
Definition seen_mark (viewer : string) (key : ConvKey) (st : State) : Z :=
  default 0 (user_seen st !! viewer ≫= (.!! key)).

(** [0 <= seen <= len(log)] for every viewer and key *)
Definition seen_inv (st : State) : Prop :=
  ∀ viewer key, 0 ≤ seen_mark viewer key st ≤ len (conversation_log key st).

(** every stored message was sent by a registered user *)
Definition senders_registered (st : State) : Prop :=
  ∀ key log entry,
    PyDict.get key (conversations st) = Some log → entry ∈ log →
    is_Some (PyDict.get (sender entry) (users st)).

(** What one request can do to the dictionaries: nothing, a login that
    writes a user record, a change of settings, a dashboard, a listing
    that marks the conversation seen, or a send between two distinct
    registered users. *)
Inductive request_effect (st : State) : State → Prop :=
| effect_none : request_effect st st
| effect_login key data :
    request_effect st
      (ensure_user_seen key (with_users (PyDict.set key data (users st)) st)).2
| effect_settings key data :
    request_effect st (with_users (PyDict.set key data (users st)) st)
| effect_dashboard user q :
    request_effect st (build_dashboard_payload user q st).2
| effect_list viewer partner :
    request_effect st (serialize_messages viewer partner true st).2
| effect_send user partner text translated :
    is_Some (PyDict.get user (users st)) →
    is_Some (PyDict.get partner (users st)) →
    user ≠ partner →
    request_effect st (save_message user partner text translated st).2.

(** [st'] shows what [st] shows: the same users, the same logs and the same
    seen mark for every viewer and key. *)
Definition same_view (st st' : State) : Prop :=
  users st' = users st ∧
  conversations st' = conversations st ∧
  ∀ viewer key, seen_mark viewer key st' = seen_mark viewer key st.

(** ** Further observations on requests and states *)

(** [current_user] finds no user for this cookie: there is none, its
    [username] is empty, or it names nobody in [users]. *)
Definition unauthenticated (session : Session) (st : State) : Prop :=
  match session with
  | Some username =>
      Str.truthy username && PyDict.mem username (users st) = false
  | None => True
  end.

(** The key of a user record is its display name in lower case, and
    neither the display name nor the language is empty. *)
Definition users_wellformed (st : State) : Prop :=
  ∀ key data,
    PyDict.get key (users st) = Some data →
    key = Str.lower (display_name data) ∧
    display_name data ≠ "" ∧ language data ≠ "".

(** A stored message lies under the canonical key of its two parties,
    who are distinct registered users, and its text is not empty. *)
Definition messages_wellformed (st : State) : Prop :=
  ∀ key log entry,
    PyDict.get key (conversations st) = Some log → entry ∈ log →
    key = conversation_key (sender entry) (recipient entry) ∧
    sender entry ≠ recipient entry ∧
    is_Some (PyDict.get (sender entry) (users st)) ∧
    is_Some (PyDict.get (recipient entry) (users st)) ∧
    original_text entry ≠ "".

(** every registered user has an entry in [user_seen] *)
Definition seen_entries (st : State) : Prop :=
  ∀ key, is_Some (PyDict.get key (users st)) → is_Some (user_seen st !! key).

(** What a served request does, with what its guards have established. *)
Inductive served (st : State) : State → Prop :=
| served_nothing : served st st
| served_login data :
    display_name data ≠ "" →
    (language data ≠ "" ∨
     ∃ old, PyDict.get (Str.lower (display_name data)) (users st) = Some old ∧
            language data = language old) →
    served st
      (ensure_user_seen (Str.lower (display_name data))
         (with_users
            (PyDict.set (Str.lower (display_name data)) data (users st))
            st)).2
| served_settings user old new_language :
    PyDict.get user (users st) = Some old →
    new_language ≠ "" →
    served st
      (with_users
         (PyDict.set user (mkUser (display_name old) new_language) (users st))
         st)
| served_dashboard user q :
    is_Some (PyDict.get user (users st)) →
    served st (build_dashboard_payload user q st).2
| served_list viewer partner :
    is_Some (PyDict.get viewer (users st)) →
    is_Some (PyDict.get partner (users st)) →
    viewer ≠ partner →
    served st (serialize_messages viewer partner true st).2
| served_send user partner text translated :
    is_Some (PyDict.get user (users st)) →
    is_Some (PyDict.get partner (users st)) →
    user ≠ partner →
    text ≠ "" →
    served st (save_message user partner text translated st).2.


(** a message at or past a viewer's seen mark is not the viewer's own *)
Definition unread_not_own (st : State) : Prop :=
  ∀ viewer key (i : nat) entry,
    conversation_log key st !! i = Some entry →
    seen_mark viewer key st ≤ Z.of_nat i →
    sender entry ≠ viewer.



(** the test of the first loop *)
Definition is_match (user query_lower : string) (item : string * User)
    : Prop :=
  item.1 ≠ user ∧
  (query_lower = "" ∨
   Str.contains query_lower (Str.lower (display_name item.2)) = true).

Global Instance is_match_dec user query_lower item :
  Decision (is_match user query_lower item).
Proof. unfold is_match. apply _. Defined.


(** ** A worked scenario

    Alice (English) and Bob (French) log in, and Alice sends "Hello". *)

Module Scenario.
Definition translating : Provider :=
  λ _ _, ProviderResponse (Some "Bonjour").

Definition unavailable : Provider := λ _ _, ProviderRaises "503 UNAVAILABLE".

Definition silent : Provider := λ _ _, ProviderResponse (Some "").

Definition bob : User := {| display_name := "Bob"; language := "French" |}.

Definition logged_in : State :=
  (handle translating None (ReqLogin true "Bob" "French")
     (handle translating None (ReqLogin true "Alice" "English")
        initial_state).2).2.

Definition hello_sent : State :=
  (handle translating (Some "alice") (ReqSendMessage "Bob" (Some "Hello"))
     logged_in).2.

Definition hello_for_alice : ViewEntry :=
  {| is_self := true;
     sender_label := "You";
     primary_text := "Hello";
     secondary_label := "Translated for Bob (French):";
     secondary_text := "Bonjour";
     created_by := "alice" |}.

Definition hello_for_bob : ViewEntry :=
  {| is_self := false;
     sender_label := "Alice";
     primary_text := "Bonjour";
     secondary_label := "Original message in English:";
     secondary_text := "Hello";
     created_by := "alice" |}.
End Scenario.

(** * Properties *)

(** ** Dictionaries and strings *)

Section PyDict_facts.
Context {K V : Type} `{EqDecision K}.
Implicit Types (k : K) (v : V) (d : PyDict.t K V).

Lemma pydict_get_set_eq k v d : PyDict.get k (PyDict.set k v d) = Some v.
Proof.
  induction d as [|[k' v'] d IH]; simpl.
  - by rewrite decide_True.
  - destruct (decide (k = k')) as [->|Hne]; simpl.
    + by rewrite decide_True.
    + by rewrite decide_False.
Qed.

Lemma pydict_get_set_ne k k' v d :
  k ≠ k' → PyDict.get k' (PyDict.set k v d) = PyDict.get k' d.
Proof.
  intros Hne. induction d as [|[k0 v0] d IH]; simpl.
  - by rewrite decide_False.
  - destruct (decide (k = k0)) as [->|Hk]; simpl.
    + by rewrite !(decide_False (P := k' = k0)).
    + destruct (decide (k' = k0)); [done | apply IH].
Qed.

Lemma pydict_get_set k k' v d :
  PyDict.get k' (PyDict.set k v d)
  = if decide (k = k') then Some v else PyDict.get k' d.
Proof.
  case_decide as Hk; [subst; apply pydict_get_set_eq |].
  by apply pydict_get_set_ne.
Qed.

Lemma pydict_set_set_eq k v w d :
  PyDict.set k v (PyDict.set k w d) = PyDict.set k v d.
Proof.
  induction d as [|[k' v'] d IH]; simpl.
  - by rewrite decide_True.
  - destruct (decide (k = k')) as [->|Hne]; simpl.
    + by rewrite decide_True.
    + rewrite decide_False by done. by rewrite IH.
Qed.

Lemma pydict_get_Some_elem_of k v d : PyDict.get k d = Some v → (k, v) ∈ d.
Proof.
  induction d as [|[k' v'] d IH]; simpl; [done |].
  case_decide as Hk.
  - intros [= ->]. subst. apply list_elem_of_here.
  - intros Hg. apply list_elem_of_further, IH, Hg.
Qed.

Lemma pydict_elem_of_get k v d : (k, v) ∈ d → is_Some (PyDict.get k d).
Proof.
  induction d as [|[k' v'] d IH]; simpl.
  - by intros ?%elem_of_nil.
  - intros Hin. case_decide; [by eexists |].
    apply elem_of_cons in Hin as [[= -> ->]|Hin]; [done | by apply IH].
Qed.

Lemma pydict_mem_true k d : PyDict.mem k d = true ↔ is_Some (PyDict.get k d).
Proof. unfold PyDict.mem. by rewrite bool_decide_eq_true. Qed.

Lemma pydict_mem_false k d : PyDict.mem k d = false ↔ PyDict.get k d = None.
Proof.
  unfold PyDict.mem. by rewrite bool_decide_eq_false, eq_None_not_Some.
Qed.

Lemma pydict_get_set_is_Some k k' v d :
  is_Some (PyDict.get k' d) → is_Some (PyDict.get k' (PyDict.set k v d)).
Proof.
  intros Hk'. rewrite pydict_get_set. by case_decide.
Qed.
End PyDict_facts.

Lemma str_truthy_true s : Str.truthy s = true ↔ s ≠ "".
Proof.
  unfold Str.truthy. rewrite negb_true_iff. apply String.eqb_neq.
Qed.

Lemma str_truthy_false s : Str.truthy s = false ↔ s = "".
Proof.
  unfold Str.truthy. rewrite negb_false_iff. apply String.eqb_eq.
Qed.

(** ** The canonical key *)

Lemma conversation_key_sym (a b : string) :
  conversation_key a b = conversation_key b a.
Proof.
  unfold conversation_key, String.ltb.
  rewrite (String.compare_antisym a b).
  destruct (String.compare b a) eqn:Hc; simpl; try done.
  apply String.compare_eq_iff in Hc. by subst.
Qed.

(** ** Effects of the core functions on the three dictionaries *)

Lemma ensure_user_seen_users u st :
  users (ensure_user_seen u st).2 = users st.
Proof. unfold ensure_user_seen. by case_match. Qed.

Lemma ensure_user_seen_conversations u st :
  conversations (ensure_user_seen u st).2 = conversations st.
Proof. unfold ensure_user_seen. by case_match. Qed.

Lemma ensure_user_seen_lookup u st :
  user_seen (ensure_user_seen u st).2 !! u = Some (ensure_user_seen u st).1.
Proof.
  unfold ensure_user_seen. case_match; simpl; [done |].
  apply lookup_insert_eq.
Qed.

Lemma ensure_user_seen_fst u st :
  (ensure_user_seen u st).1 = default ∅ (user_seen st !! u).
Proof. unfold ensure_user_seen. by case_match. Qed.

Lemma ensure_user_seen_mark u st viewer key :
  seen_mark viewer key (ensure_user_seen u st).2 = seen_mark viewer key st.
Proof.
  unfold ensure_user_seen, seen_mark. case_match eqn:Hu; simpl; [done |].
  destruct (decide (u = viewer)) as [->|Hne].
  - by rewrite lookup_insert_eq, Hu.
  - by rewrite lookup_insert_ne.
Qed.

Lemma ensure_user_seen_idemp u st :
  (ensure_user_seen u (ensure_user_seen u st).2).2 = (ensure_user_seen u st).2.
Proof.
  unfold ensure_user_seen. destruct (user_seen st !! u) eqn:Hu; simpl.
  - by rewrite Hu.
  - by rewrite lookup_insert_eq.
Qed.

Lemma conversation_log_ext key st st' :
  conversations st' = conversations st →
  conversation_log key st' = conversation_log key st.
Proof. unfold conversation_log. by intros ->. Qed.

Lemma mark_conversation_seen_users viewer partner st :
  users (mark_conversation_seen viewer partner st) = users st.
Proof.
  unfold mark_conversation_seen.
  destruct (ensure_user_seen viewer st) as [seen st1] eqn:He. simpl.
  by rewrite <- (ensure_user_seen_users viewer st), He.
Qed.

Lemma mark_conversation_seen_conversations viewer partner st :
  conversations (mark_conversation_seen viewer partner st) = conversations st.
Proof.
  unfold mark_conversation_seen.
  destruct (ensure_user_seen viewer st) as [seen st1] eqn:He. simpl.
  by rewrite <- (ensure_user_seen_conversations viewer st), He.
Qed.

Lemma mark_conversation_seen_mark viewer partner st v k :
  seen_mark v k (mark_conversation_seen viewer partner st)
  = if decide (v = viewer ∧ k = conversation_key viewer partner)
    then len (conversation_log (conversation_key viewer partner) st)
    else seen_mark v k st.
Proof.
  unfold mark_conversation_seen.
  pose proof (ensure_user_seen_mark viewer st v k) as Hm.
  pose proof (ensure_user_seen_lookup viewer st) as Hl.
  destruct (ensure_user_seen viewer st) as [seen st1]. simpl in *.
  rewrite <- Hm. unfold seen_mark. simpl.
  destruct (decide (v = viewer)) as [->|Hv].
  - rewrite lookup_insert_eq, Hl. simpl.
    destruct (decide (k = conversation_key viewer partner)) as [->|Hk].
    + rewrite lookup_insert_eq. by rewrite decide_True.
    + rewrite lookup_insert_ne by done. rewrite decide_False; [done | tauto].
  - rewrite lookup_insert_ne by done. rewrite decide_False; [done | tauto].
Qed.

Lemma unread_count_users u p st : users (unread_count u p st).2 = users st.
Proof.
  unfold unread_count.
  pose proof (ensure_user_seen_users u st).
  by destruct (ensure_user_seen u st).
Qed.

Lemma unread_count_conversations u p st :
  conversations (unread_count u p st).2 = conversations st.
Proof.
  unfold unread_count.
  pose proof (ensure_user_seen_conversations u st).
  by destruct (ensure_user_seen u st).
Qed.

Lemma unread_count_mark u p st v k :
  seen_mark v k (unread_count u p st).2 = seen_mark v k st.
Proof.
  unfold unread_count.
  pose proof (ensure_user_seen_mark u st v k).
  by destruct (ensure_user_seen u st).
Qed.

Lemma unread_count_state u p st :
  (unread_count u p st).2 = (ensure_user_seen u st).2.
Proof. unfold unread_count. by destruct (ensure_user_seen u st). Qed.

Lemma unread_count_value u p st :
  (unread_count u p st).1
  = Z.max (len (conversation_log (conversation_key u p) st)
           - seen_mark u (conversation_key u p) st) 0.
Proof.
  unfold unread_count.
  pose proof (ensure_user_seen_fst u st) as Hf.
  destruct (ensure_user_seen u st) as [seen st1]. simpl in *. subst seen.
  unfold seen_mark. by destruct (user_seen st !! u).
Qed.

Lemma save_message_users s r o t st :
  users (save_message s r o t st).2 = users st.
Proof.
  unfold save_message.
  match goal with |- context [ensure_user_seen s ?st1] =>
    pose proof (ensure_user_seen_users s st1) as Hu;
    destruct (ensure_user_seen s st1) end.
  done.
Qed.

Lemma save_message_conversations s r o t st :
  conversations (save_message s r o t st).2
  = PyDict.set (conversation_key s r)
      (conversation_log (conversation_key s r) st ++ [mkMessage s r o t])
      (conversations st).
Proof.
  unfold save_message.
  match goal with |- context [ensure_user_seen s ?st1] =>
    pose proof (ensure_user_seen_conversations s st1) as Hu;
    destruct (ensure_user_seen s st1) end.
  done.
Qed.

Lemma save_message_log s r o t st key :
  conversation_log key (save_message s r o t st).2
  = if decide (key = conversation_key s r)
    then conversation_log key st ++ [mkMessage s r o t]
    else conversation_log key st.
Proof.
  unfold conversation_log at 1. rewrite save_message_conversations.
  rewrite pydict_get_set. case_decide; case_decide; by subst.
Qed.

Lemma save_message_mark s r o t st v k :
  seen_mark v k (save_message s r o t st).2
  = if decide (v = s ∧ k = conversation_key s r)
    then len (conversation_log (conversation_key s r) st) + 1
    else seen_mark v k st.
Proof.
  unfold save_message.
  match goal with |- context [ensure_user_seen s ?st1] =>
    pose proof (ensure_user_seen_mark s st1 v k) as Hm;
    pose proof (ensure_user_seen_lookup s st1) as Hl;
    destruct (ensure_user_seen s st1) as [seen st2] end.
  simpl in *. unfold seen_mark in *. simpl in *. rewrite <- Hm.
  destruct (decide (v = s)) as [->|Hv].
  - rewrite lookup_insert_eq, Hl. simpl.
    destruct (decide (k = conversation_key s r)) as [->|Hk].
    + rewrite lookup_insert_eq, decide_True by done. simpl.
      unfold len. rewrite length_app. simpl. lia.
    + rewrite lookup_insert_ne by done. rewrite decide_False; [done | tauto].
  - rewrite lookup_insert_ne by done. rewrite decide_False; [done | tauto].
Qed.

Lemma mark_conversation_seen_idemp viewer partner st :
  mark_conversation_seen viewer partner
    (mark_conversation_seen viewer partner st)
  = mark_conversation_seen viewer partner st.
Proof.
  set (st1 := mark_conversation_seen viewer partner st).
  assert (conversations st1 = conversations st) as Hc
    by apply mark_conversation_seen_conversations.
  unfold mark_conversation_seen at 1.
  rewrite (conversation_log_ext _ _ _ Hc).
  subst st1. unfold mark_conversation_seen in *.
  destruct (ensure_user_seen viewer st) as [seen st0]. simpl in *.
  unfold ensure_user_seen. simpl. rewrite lookup_insert_eq. simpl.
  by rewrite !insert_insert_eq.
Qed.

(** ** Addressing and unread accounting *)

(** C1: the canonical key does not depend on the order in which the two
    participants are given, and a lookup, an append, a seen mark and an
    unread count made with the participants in one order all work on the
    log stored for the other order. *)
Theorem conversation_key_symmetric (a b : string) :
  conversation_key a b = conversation_key b a ∧
  (∀ st, conversation_log (conversation_key a b) st
         = conversation_log (conversation_key b a) st) ∧
  (∀ o t st,
     conversation_log (conversation_key b a) (save_message a b o t st).2
     = conversation_log (conversation_key b a) st ++ [mkMessage a b o t]) ∧
  (∀ st,
     seen_mark a (conversation_key b a) (mark_conversation_seen a b st)
     = len (conversation_log (conversation_key b a) st)) ∧
  (∀ st,
     (unread_count a b st).1
     = Z.max (len (conversation_log (conversation_key b a) st)
              - seen_mark a (conversation_key b a) st) 0).
Proof.
  pose proof (conversation_key_sym a b) as Hsym.
  split_and!; [done | by rewrite Hsym | | |].
  - intros o t st. rewrite save_message_log, decide_True; done.
  - intros st. rewrite mark_conversation_seen_mark, decide_True by done.
    by rewrite Hsym.
  - intros st. by rewrite unread_count_value, Hsym.
Qed.

(** C5: the unread count is the length of the canonical log minus the
    viewer's seen mark, clamped at zero, hence never negative; where no
    mark is stored for the viewer and the key the mark counts as zero. *)
Theorem unread_count_clamped (viewer partner : string) (st : State) :
  let key := conversation_key viewer partner in
  let total := len (conversation_log key st) in
  (unread_count viewer partner st).1
  = Z.max (total - seen_mark viewer key st) 0 ∧
  0 ≤ (unread_count viewer partner st).1 ∧
  seen_mark viewer key st
  = match user_seen st !! viewer ≫= (.!! key) with
    | Some seen => seen
    | None => 0
    end.
Proof.
  simpl. rewrite unread_count_value. split_and!; [done | lia |].
  unfold seen_mark. by destruct (_ ≫= _).
Qed.

(** C7: marking a conversation seen sets the viewer's mark for the
    canonical key to the current length of the log; doing it a second
    time changes nothing, the mark is the same and nothing is unread. *)
Theorem mark_seen_idempotent (viewer partner : string) (st : State) :
  let key := conversation_key viewer partner in
  let once := mark_conversation_seen viewer partner st in
  let twice := mark_conversation_seen viewer partner once in
  seen_mark viewer key once = len (conversation_log key st) ∧
  twice = once ∧
  seen_mark viewer key twice = seen_mark viewer key once ∧
  (unread_count viewer partner once).1 = 0 ∧
  (unread_count viewer partner twice).1 = 0.
Proof.
  simpl. rewrite mark_conversation_seen_idemp.
  assert (seen_mark viewer (conversation_key viewer partner)
            (mark_conversation_seen viewer partner st)
          = len (conversation_log (conversation_key viewer partner) st))
    as Hmark by (rewrite mark_conversation_seen_mark; by rewrite decide_True).
  assert ((unread_count viewer partner
             (mark_conversation_seen viewer partner st)).1 = 0) as Hzero.
  { rewrite unread_count_value, Hmark.
    rewrite (conversation_log_ext _ st)
      by apply mark_conversation_seen_conversations.
    lia. }
  done.
Qed.

(** ** Running the monad *)

Ltac unfold_monad :=
  unfold mbind, M_bind, fmap, M_fmap, bind, mret, M_ret, ret, raise, gets,
    modify, total, try_except in *.

Ltac run_monad := repeat (unfold_monad; simpl in *).

(** ** The projection *)

Lemma users_getitem_run key st :
  users_getitem key st
  = match PyDict.get key (users st) with
    | Some data => (Ok data, st)
    | None => (Raise (KeyError key), st)
    end.
Proof. done. Qed.

Lemma view_entry_run viewer partner_data entry st :
  view_entry viewer partner_data entry st
  = (if decide (sender entry = viewer) then
       Ok {| is_self := true;
             sender_label := "You";
             primary_text := original_text entry;
             secondary_label :=
               "Translated for " +:+ display_name partner_data
                 +:+ " (" +:+ language partner_data +:+ "):";
             secondary_text := translated_text entry;
             created_by := sender entry |}
     else
       match PyDict.get (sender entry) (users st) with
       | Some sender_data =>
           Ok {| is_self := false;
                 sender_label := display_name sender_data;
                 primary_text :=
                   Str.or (translated_text entry) (original_text entry);
                 secondary_label :=
                   "Original message in " +:+ language sender_data +:+ ":";
                 secondary_text := original_text entry;
                 created_by := sender entry |}
       | None => Raise (KeyError (sender entry))
       end,
     st).
Proof.
  unfold view_entry. case_decide as Hs.
  - rewrite bool_decide_eq_true_2 by done. by run_monad.
  - rewrite bool_decide_eq_false_2 by done. run_monad.
    unfold users_getitem. destruct (PyDict.get _ _) eqn:Hg; simpl; [|done].
    by rewrite Hg.
Qed.

Lemma view_entry_state viewer partner_data entry st :
  (view_entry viewer partner_data entry st).2 = st.
Proof. by rewrite view_entry_run. Qed.

Lemma view_entries_state viewer partner_data raw st :
  (view_entries viewer partner_data raw st).2 = st.
Proof.
  induction raw as [|entry raw IH]; simpl; [done |].
  unfold_monad.
  pose proof (view_entry_state viewer partner_data entry st) as He.
  destruct (view_entry viewer partner_data entry st) as [[view|e] st1];
    simpl in *; subst st1; [|done].
  destruct (view_entries viewer partner_data raw st) as [[views|e] st2];
    simpl in *; by subst st2.
Qed.

Lemma view_entries_cons viewer partner_data entry raw st :
  (view_entries viewer partner_data (entry :: raw) st).1
  = match (view_entry viewer partner_data entry st).1 with
    | Ok view =>
        match (view_entries viewer partner_data raw st).1 with
        | Ok views => Ok (view :: views)
        | Raise e => Raise e
        end
    | Raise e => Raise e
    end.
Proof.
  simpl. unfold_monad.
  pose proof (view_entry_state viewer partner_data entry st) as He.
  destruct (view_entry viewer partner_data entry st) as [[view|e] st1];
    simpl in *; subst st1; [|done].
  by destruct (view_entries viewer partner_data raw st) as [[views|e] st2].
Qed.

(** Every view of a successful projection is the view of the message at
    the same position of the log. *)
Lemma view_entries_Ok viewer partner_data raw st views :
  (view_entries viewer partner_data raw st).1 = Ok views →
  Forall2 (λ entry view, (view_entry viewer partner_data entry st).1 = Ok view)
    raw views.
Proof.
  revert views. induction raw as [|entry raw IH]; intros views.
  - simpl. unfold_monad. intros [= <-]. constructor.
  - rewrite view_entries_cons.
    destruct (view_entry viewer partner_data entry st).1 as [view|e] eqn:Hv;
      [|done].
    destruct (view_entries viewer partner_data raw st).1 as [views'|e] eqn:Hvs;
      [|done].
    intros [= <-]. constructor; [done | by apply IH].
Qed.

(** The projection succeeds when the senders are registered. *)
Lemma view_entries_is_Ok viewer partner_data raw st :
  (∀ entry, entry ∈ raw → is_Some (PyDict.get (sender entry) (users st))) →
  is_Ok (view_entries viewer partner_data raw st).1.
Proof.
  induction raw as [|entry raw IH]; intros Hreg.
  - by eexists.
  - rewrite view_entries_cons, view_entry_run. simpl.
    destruct IH as [views ->].
    { intros e He. apply Hreg. by apply list_elem_of_further. }
    destruct (Hreg entry) as [data ->]; [apply list_elem_of_here |].
    case_decide; by eexists.
Qed.

Lemma serialize_messages_run viewer partner mark_seen st :
  serialize_messages viewer partner mark_seen st
  = match PyDict.get partner (users st) with
    | None => (Raise (KeyError partner), st)
    | Some partner_data =>
        match (view_entries viewer partner_data
                 (conversation_log (conversation_key viewer partner) st) st).1
        with
        | Ok views =>
            (Ok views,
             if mark_seen then mark_conversation_seen viewer partner st
             else st)
        | Raise e => (Raise e, st)
        end
    end.
Proof.
  unfold serialize_messages. unfold_monad. simpl.
  unfold users_getitem. destruct (PyDict.get partner (users st)); [|done].
  match goal with |- context [view_entries ?v ?d ?r st] =>
    pose proof (view_entries_state v d r st) as Hst;
    destruct (view_entries v d r st) as [[views|e] st1] end;
    simpl in *; subst st1; [|done].
  by destruct mark_seen.
Qed.

(** C4: in a successful listing every stored message of the conversation
    has its view, at the same position.  For a message of the viewer the
    primary text is the original, the secondary text the translation and
    the label "You"; for a message of the other party the primary text is
    the translation when it is not empty and the original otherwise, the
    secondary text is the original, and the label is the display name the
    sender has in [users] when the listing runs. *)
Theorem projection_by_authorship
    (viewer partner : string) (mark_seen : bool) (st st' : State)
    (views : list ViewEntry) :
  serialize_messages viewer partner mark_seen st = (Ok views, st') →
  Forall2
    (λ entry view,
       if decide (sender entry = viewer) then
         primary_text view = original_text entry ∧
         secondary_text view = translated_text entry ∧
         sender_label view = "You"
       else
         primary_text view
         = (if decide (translated_text entry ≠ "") then translated_text entry
            else original_text entry) ∧
         secondary_text view = original_text entry ∧
         ∃ sender_data,
           PyDict.get (sender entry) (users st) = Some sender_data ∧
           sender_label view = display_name sender_data)
    (conversation_log (conversation_key viewer partner) st) views.
Proof.
  rewrite serialize_messages_run.
  destruct (PyDict.get partner (users st)) as [partner_data|]; [|done].
  destruct (view_entries _ _ _ _).1 as [views0|e] eqn:Hviews; [|done].
  intros [= <- _]. apply view_entries_Ok in Hviews.
  eapply Forall2_impl; [exact Hviews |].
  intros entry view. simpl. rewrite view_entry_run. simpl.
  case_decide as Hself.
  - by intros [= <-].
  - destruct (PyDict.get (sender entry) (users st)) as [data|]; [|done].
    intros [= <-]. simpl. split_and!; [| done | by eexists].
    unfold Str.or. destruct (Str.truthy _) eqn:Ht.
    + apply str_truthy_true in Ht. by rewrite decide_True.
    + apply str_truthy_false in Ht. by rewrite decide_False by naive_solver.
Qed.

Lemma serialize_messages_unregistered viewer partner mark_seen st :
  PyDict.get partner (users st) = None →
  serialize_messages viewer partner mark_seen st
  = (Raise (KeyError partner), st).
Proof. rewrite serialize_messages_run. by intros ->. Qed.

Lemma serialize_messages_is_Ok viewer partner mark_seen st :
  is_Some (PyDict.get partner (users st)) →
  Forall (λ entry, is_Some (PyDict.get (sender entry) (users st)))
    (conversation_log (conversation_key viewer partner) st) →
  is_Ok (serialize_messages viewer partner mark_seen st).1.
Proof.
  rewrite serialize_messages_run. intros [partner_data ->] Hsenders.
  destruct (view_entries_is_Ok viewer partner_data
              (conversation_log (conversation_key viewer partner) st) st)
    as [views ->]; [|by eexists].
  by apply Forall_forall.
Qed.

(** C10: a listing looks the partner up in [users] before it projects
    anything, so for a partner that is not registered it raises, whatever
    the log holds and also when it is empty; when the partner and the
    senders of the stored messages of the pair are registered it
    returns. *)
Theorem serialize_requires_registered_partner
    (viewer partner : string) (mark_seen : bool) (st : State) :
  (PyDict.get partner (users st) = None →
   serialize_messages viewer partner mark_seen st
   = (Raise (KeyError partner), st)) ∧
  (is_Some (PyDict.get partner (users st)) →
   Forall (λ entry, is_Some (PyDict.get (sender entry) (users st)))
     (conversation_log (conversation_key viewer partner) st) →
   is_Ok (serialize_messages viewer partner mark_seen st).1).
Proof.
  split.
  - apply serialize_messages_unregistered.
  - apply serialize_messages_is_Ok.
Qed.

(** ** Sending *)

Lemma translate_message_state gc text lang st :
  (translate_message gc text lang st).2 = st.
Proof. unfold translate_message. by destruct (gc _ _). Qed.

Lemma serialize_messages_no_mark_state viewer partner st :
  (serialize_messages viewer partner false st).2 = st.
Proof.
  rewrite serialize_messages_run.
  destruct (PyDict.get _ _); [|done]. by destruct (view_entries _ _ _ _).1.
Qed.

Lemma send_message_body_run gc user partner_key text st :
  send_message_body gc user partner_key text st
  = match PyDict.get partner_key (users st) with
    | None => (Raise (KeyError partner_key), st)
    | Some partner_data =>
        match (translate_message gc text (language partner_data) st).1 with
        | Raise e => (Raise e, st)
        | Ok translated =>
            let st1 := (save_message user partner_key text translated st).2 in
            (match (serialize_messages user partner_key false st1).1 with
             | Ok views =>
                 match last views with
                 | Some view => Ok (JsonMessage view)
                 | None => Raise IndexError
                 end
             | Raise e => Raise e
             end, st1)
        end
    end.
Proof.
  unfold send_message_body. unfold_monad. unfold users_getitem.
  destruct (PyDict.get partner_key (users st)) as [partner_data|]; [|done].
  pose proof (translate_message_state gc text (language partner_data) st) as Ht.
  destruct (translate_message gc text (language partner_data) st)
    as [[translated|e] st0]; simpl in *; subst st0; [|done].
  destruct (save_message user partner_key text translated st) as [entry st1].
  simpl.
  pose proof (serialize_messages_no_mark_state user partner_key st1) as Hs.
  destruct (serialize_messages user partner_key false st1)
    as [[views|e] st2]; simpl in *; subst st2; [|done].
  unfold last_item. by destruct (last views).
Qed.

Lemma send_message_run gc session partner message st :
  send_message gc session partner message st
  = match session with
    | Some user =>
        if Str.truthy user && PyDict.mem user (users st) then
          let partner_key := Str.lower partner in
          if negb (PyDict.mem partner_key (users st))
             || bool_decide (partner_key = user) then
            (Ok (session, JsonError "Invalid conversation" 400), st)
          else
            let text := Str.strip (default "" message) in
            if negb (Str.truthy text) then
              (Ok (session, JsonError "Type a message before sending." 400),
               st)
            else
              match send_message_body gc user partner_key text st with
              | (Ok response, st') => (Ok (session, response), st')
              | (Raise exc, st') =>
                  (Ok (session,
                       JsonError
                         ("Could not translate your message: "
                            +:+ exn_str exc) 500), st')
              end
        else (Ok (None, JsonError "Not authenticated" 401), st)
    | None => (Ok (None, JsonError "Not authenticated" 401), st)
    end.
Proof.
  unfold send_message, current_user. unfold_monad.
  destruct session as [user|]; [|done].
  destruct (Str.truthy user && PyDict.mem user (users st)); [|done].
  simpl. destruct (negb _ || _); [done |].
  destruct (negb (Str.truthy _)); [done |].
  by destruct (send_message_body _ _ _ _ _) as [[response|exc] st'].
Qed.

(** C2: when the provider raises on the call made for a send, the send
    answers with an error that carries the provider's diagnostic and the
    three dictionaries are what they were: the log of the pair, and every
    other log, has the same messages, and every seen mark is the same. *)
Theorem failed_translation_stores_nothing
    (generate_content : Provider) (user partner : string)
    (message : option string) (st : State) (partner_data : User)
    (diagnostic : string) :
  let partner_key := Str.lower partner in
  let message_text := Str.strip (default "" message) in
  user ≠ "" →
  is_Some (PyDict.get user (users st)) →
  PyDict.get partner_key (users st) = Some partner_data →
  partner_key ≠ user →
  message_text ≠ "" →
  generate_content message_text
    ("Translate this message to " +:+ language partner_data
       +:+ ". Only return the translated text.")
  = ProviderRaises diagnostic →
  send_message generate_content (Some user) partner message st
  = (Ok (Some user,
         JsonError ("Could not translate your message: " +:+ diagnostic) 500),
     st).
Proof.
  intros partner_key message_text Huser Hreg Hpartner Hne Htext Hraises.
  rewrite send_message_run.
  apply str_truthy_true in Huser, Htext.
  apply pydict_mem_true in Hreg.
  rewrite Huser, Hreg. simpl. fold partner_key message_text.
  assert (PyDict.mem partner_key (users st) = true) as ->
    by (apply pydict_mem_true; by eexists).
  rewrite bool_decide_eq_false_2 by done. rewrite Htext. simpl.
  rewrite send_message_body_run, Hpartner.
  unfold translate_message. by rewrite Hraises.
Qed.

(** ** What a request does to the dictionaries *)

Lemma login_effect session is_post u l st :
  request_effect st (login session is_post u l st).2.
Proof.
  unfold login, current_user, users_setitem. unfold_monad.
  repeat (case_match; simpl in *; simplify_eq; try apply effect_none).
  all: match goal with
       | H : ensure_user_seen ?k ?s = (_, ?s') |- _ =>
           replace s' with (ensure_user_seen k s).2 by (by rewrite H)
       end; apply effect_login.
Qed.

Ltac close_effect :=
  match goal with
  | H : ?f ?st = (_, ?st') |- request_effect ?st ?st' =>
      replace st' with (f st).2 by (by rewrite H)
  end.

Lemma dashboard_effect session q st :
  request_effect st (dashboard session q st).2.
Proof.
  unfold dashboard, current_user, users_getitem. unfold_monad.
  repeat (case_match; simpl in *; simplify_eq; try apply effect_none).
  all: close_effect; apply effect_dashboard.
Qed.

Lemma dashboard_data_effect session q st :
  request_effect st (dashboard_data session q st).2.
Proof.
  unfold dashboard_data, current_user, users_getitem. unfold_monad.
  repeat (case_match; simpl in *; simplify_eq; try apply effect_none).
  all: close_effect; apply effect_dashboard.
Qed.

Lemma chat_effect session partner st :
  request_effect st (chat session partner st).2.
Proof.
  unfold chat, current_user, users_getitem. unfold_monad.
  repeat (case_match; simpl in *; simplify_eq; try apply effect_none).
  all: close_effect; apply effect_list.
Qed.

Lemma chat_messages_effect session partner st :
  request_effect st (chat_messages session partner st).2.
Proof.
  unfold chat_messages, current_user, users_getitem. unfold_monad.
  repeat (case_match; simpl in *; simplify_eq; try apply effect_none).
  all: close_effect; apply effect_list.
Qed.

Lemma settings_effect session is_post l st :
  request_effect st (settings session is_post l st).2.
Proof.
  unfold settings, current_user, users_getitem, users_setitem. unfold_monad.
  repeat (case_match; simpl in *; simplify_eq; try apply effect_none).
  all: apply effect_settings.
Qed.

Lemma send_message_effect gc session partner message st :
  request_effect st (send_message gc session partner message st).2.
Proof.
  rewrite send_message_run.
  destruct session as [user|]; [|apply effect_none].
  destruct (Str.truthy user && PyDict.mem user (users st)) eqn:Huser;
    [|apply effect_none].
  apply andb_true_iff in Huser as [_ Hreg%pydict_mem_true]. simpl.
  destruct (negb _ || _) eqn:Hpartner; [apply effect_none |].
  apply orb_false_iff in Hpartner as [_ Hne%bool_decide_eq_false].
  destruct (negb (Str.truthy _)); [apply effect_none |].
  rewrite send_message_body_run.
  destruct (PyDict.get (Str.lower partner) (users st)) as [partner_data|]
    eqn:Hp; [|apply effect_none].
  destruct (translate_message _ _ _ _).1 as [translated|e];
    [|apply effect_none].
  simpl.
  match goal with |- request_effect _ ?x.2 =>
    assert (x.2 = (save_message user (Str.lower partner)
                     (Str.strip (default "" message)) translated st).2) as ->
  end.
  { destruct (serialize_messages _ _ _ _).1 as [views|e]; [|done].
    by destruct (last views). }
  apply effect_send; [done | | congruence]. by rewrite Hp.
Qed.

Lemma http_step_effect st st' : http_step st st' → request_effect st st'.
Proof.
  intros (gc & session & req & <-). destruct req; simpl.
  - apply login_effect.
  - apply effect_none.
  - apply dashboard_effect.
  - apply dashboard_data_effect.
  - apply chat_effect.
  - apply chat_messages_effect.
  - apply send_message_effect.
  - apply settings_effect.
Qed.

Lemma request_effect_core st st' :
  request_effect st st' → rtc core_step st st'.
Proof.
  destruct 1.
  - done.
  - eapply rtc_l; [apply (step_users (PyDict.set key data (users st))) |].
    apply rtc_once, step_ensure.
  - apply rtc_once, step_users.
  - apply rtc_once, step_dashboard.
  - apply rtc_once, step_list.
  - apply rtc_once, step_save.
Qed.

Lemma reachable_core_reachable st : reachable st → core_reachable st.
Proof.
  unfold reachable, core_reachable. induction 1 as [|st1 st2 st3 Hstep _ IH].
  - done.
  - etrans; [|exact IH]. by apply request_effect_core, http_step_effect.
Qed.

(** ** The dashboard only reads *)

Global Instance same_view_refl : Reflexive same_view.
Proof. by intros st. Qed.

Global Instance same_view_trans : Transitive same_view.
Proof.
  intros st1 st2 st3 (Hu1 & Hc1 & Hm1) (Hu2 & Hc2 & Hm2).
  split_and!; [congruence | congruence |].
  intros v k. by rewrite Hm2, Hm1.
Qed.

Lemma unread_count_same_view u p st : same_view st (unread_count u p st).2.
Proof.
  split_and!;
    [apply unread_count_users | apply unread_count_conversations |].
  intros v k. apply unread_count_mark.
Qed.

Lemma ensure_user_seen_same_view u st :
  same_view st (ensure_user_seen u st).2.
Proof.
  split_and!;
    [apply ensure_user_seen_users | apply ensure_user_seen_conversations |].
  intros v k. apply ensure_user_seen_mark.
Qed.

Lemma same_view_log st st' key :
  same_view st st' → conversation_log key st' = conversation_log key st.
Proof. intros (_ & Hc & _). by apply conversation_log_ext. Qed.

Lemma dashboard_matches_frame user query_lower items st :
  ∃ found st',
    dashboard_matches user query_lower items st = (Ok found, st') ∧
    same_view st st'.
Proof.
  revert st. induction items as [|[username data] items IH]; intros st; simpl.
  - by eexists _, _.
  - case_bool_decide; [apply IH |].
    destruct (negb _ || _); [|apply IH].
    unfold_monad.
    pose proof (unread_count_same_view user username st) as Hview.
    destruct (unread_count user username st) as [unread st1]. simpl in *.
    destruct (IH st1) as (more & st2 & -> & Hview2).
    eexists _, _. split; [done |]. by etrans.
Qed.

Lemma dashboard_recent_frame user keys seen_partners st :
  ∃ recent st',
    dashboard_recent user keys seen_partners st = (Ok recent, st') ∧
    same_view st st'.
Proof.
  revert seen_partners st.
  induction keys as [|key keys IH]; intros seen_partners st; simpl.
  - by eexists _, _.
  - destruct (_ || _); [|apply IH].
    unfold_monad.
    destruct (PyDict.mem _ (users st)) eqn:Hmem; [|apply IH]. simpl.
    destruct (negb _); [|apply IH].
    apply pydict_mem_true in Hmem as [data Hdata].
    unfold users_getitem. rewrite Hdata.
    match goal with |- context [unread_count user ?other st] =>
      pose proof (unread_count_same_view user other st) as Hview;
      destruct (unread_count user other st) as [unread st1] end.
    simpl in *.
    match goal with |- context [dashboard_recent user keys ?seen st1] =>
      destruct (IH seen st1) as (more & st2 & -> & Hview2) end.
    eexists _, _. split; [done |]. by etrans.
Qed.

Lemma build_dashboard_payload_frame user q st :
  ∃ payload st',
    build_dashboard_payload user q st = (Ok payload, st') ∧ same_view st st'.
Proof.
  unfold build_dashboard_payload. unfold_monad.
  match goal with |- context [dashboard_matches user ?ql ?items st] =>
    destruct (dashboard_matches_frame user ql items st)
      as (found & st1 & -> & Hview1) end.
  match goal with |- context [dashboard_recent user ?keys ∅ st1] =>
    destruct (dashboard_recent_frame user keys ∅ st1)
      as (recent & st2 & -> & Hview2) end.
  eexists _, _. split; [done |]. by etrans.
Qed.

(** C9: building the dashboard returns a payload for every viewer, query
    and state, it never raises, and it leaves the users, every
    conversation log and every seen mark as they were. *)
Theorem dashboard_read_only (user query : string) (st : State) :
  ∃ payload st',
    build_dashboard_payload user query st = (Ok payload, st') ∧
    users st' = users st ∧
    conversations st' = conversations st ∧
    (∀ key, conversation_log key st' = conversation_log key st) ∧
    (∀ viewer key, seen_mark viewer key st' = seen_mark viewer key st).
Proof.
  destruct (build_dashboard_payload_frame user query st)
    as (payload & st' & Hrun & Hview).
  exists payload, st'. split; [done |].
  destruct Hview as (Hu & Hc & Hm). split_and!; try done.
  intros key. by apply conversation_log_ext.
Qed.

(** ** The seen-mark invariant *)

Lemma seen_frame st st' :
  conversations st' = conversations st →
  (∀ v k, seen_mark v k st' = seen_mark v k st) →
  seen_inv st →
  seen_inv st' ∧ ∀ v k, seen_mark v k st ≤ seen_mark v k st'.
Proof.
  intros Hc Hm Hinv. split; intros v k; rewrite Hm; [|done].
  rewrite (conversation_log_ext k st st' Hc). apply Hinv.
Qed.

Lemma same_view_seen st st' :
  same_view st st' → seen_inv st →
  seen_inv st' ∧ ∀ v k, seen_mark v k st ≤ seen_mark v k st'.
Proof. intros (_ & Hc & Hm). by apply seen_frame. Qed.

Lemma mark_conversation_seen_seen viewer partner st :
  seen_inv st →
  seen_inv (mark_conversation_seen viewer partner st) ∧
  ∀ v k,
    seen_mark v k st
    ≤ seen_mark v k (mark_conversation_seen viewer partner st).
Proof.
  intros Hinv. split; intros v k; rewrite mark_conversation_seen_mark.
  - rewrite (conversation_log_ext k st)
      by apply mark_conversation_seen_conversations.
    case_decide as Hvk; [|apply Hinv].
    destruct Hvk as [-> ->]. unfold len. lia.
  - case_decide as Hvk; [|done]. destruct Hvk as [-> ->]. apply Hinv.
Qed.

Lemma save_message_seen s r o t st :
  seen_inv st →
  seen_inv (save_message s r o t st).2 ∧
  ∀ v k, seen_mark v k st ≤ seen_mark v k (save_message s r o t st).2.
Proof.
  intros Hinv. split; intros v k; rewrite save_message_mark.
  - rewrite save_message_log.
    destruct (decide (k = conversation_key s r)) as [->|Hk].
    + pose proof (Hinv v (conversation_key s r)) as Hvk.
      unfold len in *. rewrite length_app. simpl.
      case_decide; lia.
    + rewrite decide_False by tauto. apply Hinv.
  - case_decide as Hvk; [|done]. destruct Hvk as [-> ->].
    pose proof (Hinv s (conversation_key s r)). lia.
Qed.

Lemma serialize_messages_state viewer partner mark_seen st :
  (serialize_messages viewer partner mark_seen st).2 = st ∨
  (serialize_messages viewer partner mark_seen st).2
  = mark_conversation_seen viewer partner st.
Proof.
  rewrite serialize_messages_run.
  destruct (PyDict.get _ _); [|by left].
  destruct (view_entries _ _ _ _).1; [|by left].
  destruct mark_seen; [by right | by left].
Qed.

Lemma core_step_seen st st' :
  core_step st st' → seen_inv st →
  seen_inv st' ∧ ∀ v k, seen_mark v k st ≤ seen_mark v k st'.
Proof.
  destruct 1 as [s r o t st|viewer partner st|viewer partner st
                |viewer partner mark_seen st|user q st|username st|us st];
    intros Hinv.
  - by apply save_message_seen.
  - by apply mark_conversation_seen_seen.
  - apply (same_view_seen st); [apply unread_count_same_view | done].
  - destruct (serialize_messages_state viewer partner mark_seen st) as [->| ->].
    + by apply (same_view_seen st).
    + by apply mark_conversation_seen_seen.
  - destruct (build_dashboard_payload_frame user q st)
      as (payload & st' & -> & Hview).
    by apply (same_view_seen st).
  - apply (same_view_seen st); [apply ensure_user_seen_same_view | done].
  - by apply (seen_frame st).
Qed.

Lemma initial_state_seen : seen_inv initial_state.
Proof. intros v k. unfold seen_mark, len. simpl. by rewrite lookup_empty. Qed.

Lemma core_reachable_seen st : core_reachable st → seen_inv st.
Proof.
  unfold core_reachable. revert st.
  apply (rtc_ind_r seen_inv initial_state); [apply initial_state_seen |].
  intros st1 st2 _ Hstep Hinv. by apply (core_step_seen st1 st2).
Qed.

Lemma rtc_core_step_seen st st' :
  rtc core_step st st' → seen_inv st →
  seen_inv st' ∧ ∀ v k, seen_mark v k st ≤ seen_mark v k st'.
Proof.
  induction 1 as [|st1 st2 st3 Hstep _ IH]; intros Hinv; [done |].
  destruct (core_step_seen _ _ Hstep Hinv) as [Hinv2 Hmono2].
  destruct (IH Hinv2) as [Hinv3 Hmono3]. split; [done |].
  intros v k. etrans; [apply Hmono2 | apply Hmono3].
Qed.

(** C8: in every state that calls of the core functions and changes of
    the user directory lead to from the empty dictionaries, each seen mark
    lies between zero and the length of its log; and neither a further
    call of a core function nor a served request makes a seen mark
    smaller. *)
Theorem seen_mark_invariant (st : State) :
  core_reachable st →
  seen_inv st ∧
  ∀ st', core_step st st' ∨ http_step st st' →
         ∀ viewer key, seen_mark viewer key st ≤ seen_mark viewer key st'.
Proof.
  intros Hreach. pose proof (core_reachable_seen st Hreach) as Hinv.
  split; [done |]. intros st' [Hstep|Hstep].
  - by apply (core_step_seen st st').
  - apply (rtc_core_step_seen st st'); [|done].
    by apply request_effect_core, http_step_effect.
Qed.

(** ** Senders are registered users *)

Lemma conversation_log_elem entry key st :
  entry ∈ conversation_log key st →
  ∃ log, PyDict.get key (conversations st) = Some log ∧ entry ∈ log.
Proof.
  unfold conversation_log. destruct (PyDict.get key (conversations st)).
  - by eexists.
  - by intros ?%elem_of_nil.
Qed.

Lemma senders_frame st st' :
  conversations st' = conversations st →
  (∀ u, is_Some (PyDict.get u (users st)) →
        is_Some (PyDict.get u (users st'))) →
  senders_registered st → senders_registered st'.
Proof.
  intros Hc Hu Hinv key log entry Hlog Hentry.
  rewrite Hc in Hlog. by eapply Hu, Hinv.
Qed.

Lemma save_message_senders s r o t st :
  is_Some (PyDict.get s (users st)) →
  senders_registered st → senders_registered (save_message s r o t st).2.
Proof.
  intros Hs Hinv key log entry.
  rewrite save_message_users, save_message_conversations, pydict_get_set.
  case_decide as Hkey; [|apply Hinv].
  intros [= <-] [Hin|Hin%list_elem_of_singleton]%elem_of_app.
  - apply conversation_log_elem in Hin as (log & Hlog & Hin).
    by eapply Hinv.
  - by subst entry.
Qed.

Lemma request_effect_senders st st' :
  request_effect st st' → senders_registered st → senders_registered st'.
Proof.
  destruct 1 as [|key data|key data|user q|viewer partner
                |user partner text translated Huser _ _].
  - done.
  - apply senders_frame.
    + by rewrite ensure_user_seen_conversations.
    + intros u Hu. rewrite ensure_user_seen_users. simpl.
      by apply pydict_get_set_is_Some.
  - apply senders_frame; [done |].
    intros u Hu. by apply pydict_get_set_is_Some.
  - destruct (build_dashboard_payload_frame user q st)
      as (payload & st' & -> & Hu & Hc & _).
    simpl. apply senders_frame; [done |]. by rewrite Hu.
  - destruct (serialize_messages_state viewer partner true st) as [->| ->];
      [done |].
    apply senders_frame.
    + apply mark_conversation_seen_conversations.
    + by rewrite mark_conversation_seen_users.
  - by apply save_message_senders.
Qed.

Lemma reachable_senders st : reachable st → senders_registered st.
Proof.
  unfold reachable. revert st.
  apply (rtc_ind_r senders_registered initial_state).
  - by intros key log entry.
  - intros st1 st2 _ Hstep Hinv.
    apply (request_effect_senders st1 st2); [|done].
    by apply http_step_effect.
Qed.

Lemma reachable_seen st : reachable st → seen_inv st.
Proof.
  intros Hreach. by apply core_reachable_seen, reachable_core_reachable.
Qed.

(** ** A send that goes through *)

Lemma serialize_messages_views viewer partner mark_seen st views st' :
  serialize_messages viewer partner mark_seen st = (Ok views, st') →
  length views
  = length (conversation_log (conversation_key viewer partner) st).
Proof.
  rewrite serialize_messages_run.
  destruct (PyDict.get _ _); [|done].
  destruct (view_entries _ _ _ _).1 as [views0|e] eqn:Hviews; [|done].
  intros [= <- _]. symmetry.
  by eapply Forall2_length, view_entries_Ok.
Qed.

(** Past the guards of [send_message], with a translation in hand and the
    senders of the pair's log registered, the send stores the message and
    answers with its view. *)
Lemma send_message_stores gc user partner message st partner_data translated :
  let partner_key := Str.lower partner in
  let text := Str.strip (default "" message) in
  user ≠ "" →
  is_Some (PyDict.get user (users st)) →
  PyDict.get partner_key (users st) = Some partner_data →
  partner_key ≠ user →
  text ≠ "" →
  (translate_message gc text (language partner_data) st).1 = Ok translated →
  Forall (λ entry, is_Some (PyDict.get (sender entry) (users st)))
    (conversation_log (conversation_key user partner_key) st) →
  ∃ view,
    send_message gc (Some user) partner message st
    = (Ok (Some user, JsonMessage view),
       (save_message user partner_key text translated st).2).
Proof.
  intros partner_key text Huser Hreg Hpartner Hne Htext Htr Hsenders.
  rewrite send_message_run.
  apply str_truthy_true in Huser, Htext.
  pose proof Hreg as Hmem. apply pydict_mem_true in Hmem.
  rewrite Huser, Hmem. simpl. fold partner_key text.
  assert (PyDict.mem partner_key (users st) = true) as ->
    by (apply pydict_mem_true; by eexists).
  rewrite bool_decide_eq_false_2 by done. rewrite Htext. simpl.
  rewrite send_message_body_run, Hpartner, Htr. simpl.
  set (st1 := (save_message user partner_key text translated st).2).
  destruct (serialize_messages_is_Ok user partner_key false st1)
    as [views Hviews].
  { unfold st1. rewrite save_message_users. by eexists. }
  { unfold st1. rewrite save_message_log, decide_True by done.
    rewrite save_message_users.
    apply Forall_app. split; [done |]. by apply Forall_singleton. }
  rewrite Hviews.
  assert (is_Some (last views)) as [view ->].
  { apply last_is_Some. intros ->.
    destruct (serialize_messages user partner_key false st1)
      as [r st2] eqn:Hrun. simpl in Hviews. subst r.
    apply serialize_messages_views in Hrun.
    unfold st1 in Hrun. rewrite save_message_log, decide_True in Hrun by done.
    rewrite length_app in Hrun. simpl in Hrun. lia. }
  by eexists.
Qed.

Lemma send_message_JsonMessage_inv gc session partner message st
    session' view st' :
  send_message gc session partner message st
  = (Ok (session', JsonMessage view), st') →
  ∃ user translated,
    session = Some user ∧ Str.lower partner ≠ user ∧
    st' = (save_message user (Str.lower partner)
             (Str.strip (default "" message)) translated st).2.
Proof.
  rewrite send_message_run.
  destruct session as [user|]; [|done].
  destruct (Str.truthy user && _); [|done]. simpl.
  destruct (negb _ || _) eqn:Hpartner; [done |].
  apply orb_false_iff in Hpartner as [_ Hne%bool_decide_eq_false].
  destruct (negb (Str.truthy _)); [done |].
  rewrite send_message_body_run.
  destruct (PyDict.get (Str.lower partner) (users st)); [|done].
  destruct (translate_message _ _ _ _).1 as [translated|e]; [|done].
  simpl. destruct (serialize_messages _ _ _ _).1 as [views|e]; [|done].
  destruct (last views); [|done].
  intros [= _ _ <-]. by exists user, translated.
Qed.

(** C3: when the provider answers a send with no text or with the empty
    string, the send goes through: the answer is the view of the new
    message, not an error, and the message appended to the log of the
    pair has the sender's text in both slots, which is not empty. *)
Theorem empty_translation_falls_back
    (generate_content : Provider) (user partner : string)
    (message : option string) (st : State) (partner_data : User)
    (text : option string) :
  let partner_key := Str.lower partner in
  let message_text := Str.strip (default "" message) in
  let key := conversation_key user partner_key in
  reachable st →
  user ≠ "" →
  is_Some (PyDict.get user (users st)) →
  PyDict.get partner_key (users st) = Some partner_data →
  partner_key ≠ user →
  message_text ≠ "" →
  generate_content message_text
    ("Translate this message to " +:+ language partner_data
       +:+ ". Only return the translated text.")
  = ProviderResponse text →
  text = None ∨ text = Some "" →
  ∃ view st' entry,
    send_message generate_content (Some user) partner message st
    = (Ok (Some user, JsonMessage view), st') ∧
    conversation_log key st' = conversation_log key st ++ [entry] ∧
    original_text entry = message_text ∧
    translated_text entry = original_text entry ∧
    translated_text entry ≠ "".
Proof.
  intros partner_key message_text key Hreach Huser Hreg Hpartner Hne Htext
    Hresponse Hempty.
  destruct (send_message_stores generate_content user partner message st
              partner_data message_text) as [view Hsend]; try done.
  - unfold translate_message. fold message_text. rewrite Hresponse.
    by destruct Hempty as [-> | ->].
  - apply Forall_forall. intros entry Hentry.
    apply conversation_log_elem in Hentry as (log & Hlog & Hentry).
    by eapply (reachable_senders st).
  - eexists view, _, (mkMessage user partner_key message_text message_text).
    split; [exact Hsend |].
    fold partner_key message_text. rewrite save_message_log.
    by rewrite decide_True.
Qed.

(** C6: after a send that went through, from a reachable state, the
    sender's seen mark for the pair is the new length of the log and the
    sender has nothing unread; the recipient, who had nothing unread
    before, has exactly one unread message. *)
Theorem send_updates_unread_counts
    (generate_content : Provider) (a partner : string)
    (message : option string) (st st' : State) (session' : Session)
    (view : ViewEntry) :
  let b := Str.lower partner in
  reachable st →
  send_message generate_content (Some a) partner message st
  = (Ok (session', JsonMessage view), st') →
  (unread_count b a st).1 = 0 →
  seen_mark a (conversation_key a b) st'
  = len (conversation_log (conversation_key a b) st') ∧
  (unread_count a b st').1 = 0 ∧
  (unread_count b a st').1 = 1.
Proof.
  intros b Hreach Hsend Hzero.
  apply send_message_JsonMessage_inv in Hsend
    as (user & translated & [= <-] & Hne & ->).
  fold b in Hne |- *.
  pose proof (reachable_seen st Hreach b (conversation_key a b)) as Hinv.
  rewrite unread_count_value, (conversation_key_sym b a) in Hzero.
  rewrite !unread_count_value, (conversation_key_sym b a).
  rewrite !save_message_mark, save_message_log.
  rewrite !decide_True by done. rewrite decide_False by tauto.
  unfold len in *. rewrite length_app. simpl. lia.
Qed.

(** ** The scenario, run *)

Lemma reachable_handle gc session req st :
  reachable st → reachable (handle gc session req st).2.
Proof.
  intros Hreach. eapply rtc_r; [exact Hreach |]. by exists gc, session, req.
Qed.

Lemma reachable_logged_in : reachable Scenario.logged_in.
Proof. do 2 apply reachable_handle. apply rtc_refl. Qed.

Lemma reachable_hello_sent : reachable Scenario.hello_sent.
Proof. apply reachable_handle, reachable_logged_in. Qed.

Example scenario_listing_for_bob :
  (serialize_messages "bob" "alice" true Scenario.hello_sent).1
  = Ok [Scenario.hello_for_bob].
Proof. vm_compute. reflexivity. Qed.

Example scenario_listing_for_alice :
  (serialize_messages "alice" "bob" false Scenario.hello_sent).1
  = Ok [Scenario.hello_for_alice].
Proof. vm_compute. reflexivity. Qed.

(** A response that is not empty but holds only whitespace is stripped to
    the empty string and stored as the translation. *)
Example whitespace_translation_is_stored_blank :
  (translate_message (λ _ _, ProviderResponse (Some "  ")) "Hello" "French"
     initial_state).1 = Ok "".
Proof. reflexivity. Qed.

(** For a viewer without an entry in [user_seen] the dashboard's call of
    [unread_count] creates an empty one; no seen mark changes by that. *)
Example dashboard_creates_empty_seen_entry :
  let st := with_user_seen ∅ Scenario.logged_in in
  user_seen (build_dashboard_payload "alice" "" st).2 = {["alice" := ∅]}.
Proof. vm_compute. reflexivity. Qed.

(** ** The properties at the scenario *)

Lemma failed_translation_stores_nothing_witness :
  send_message Scenario.unavailable (Some "alice") "Bob" (Some "Hello")
    Scenario.logged_in
  = (Ok (Some "alice",
         JsonError "Could not translate your message: 503 UNAVAILABLE" 500),
     Scenario.logged_in).
Proof.
  apply (failed_translation_stores_nothing Scenario.unavailable "alice" "Bob"
           (Some "Hello") Scenario.logged_in Scenario.bob "503 UNAVAILABLE").
  - discriminate.
  - vm_compute. eauto.
  - vm_compute. reflexivity.
  - vm_compute. discriminate.
  - vm_compute. discriminate.
  - reflexivity.
Defined.

Lemma empty_translation_falls_back_witness :
  ∃ view st' entry,
    send_message Scenario.silent (Some "alice") "Bob" (Some "Hello")
      Scenario.logged_in
    = (Ok (Some "alice", JsonMessage view), st') ∧
    conversation_log (conversation_key "alice" (Str.lower "Bob")) st'
    = conversation_log (conversation_key "alice" (Str.lower "Bob"))
        Scenario.logged_in ++ [entry] ∧
    original_text entry = Str.strip "Hello" ∧
    translated_text entry = original_text entry ∧
    translated_text entry ≠ "".
Proof.
  apply (empty_translation_falls_back Scenario.silent "alice" "Bob"
           (Some "Hello") Scenario.logged_in Scenario.bob (Some "")).
  - apply reachable_logged_in.
  - discriminate.
  - vm_compute. eauto.
  - vm_compute. reflexivity.
  - vm_compute. discriminate.
  - vm_compute. discriminate.
  - reflexivity.
  - right. reflexivity.
Defined.

Lemma projection_by_authorship_witness :
  Forall2
    (λ entry view,
       if decide (sender entry = "bob") then
         primary_text view = original_text entry ∧
         secondary_text view = translated_text entry ∧
         sender_label view = "You"
       else
         primary_text view
         = (if decide (translated_text entry ≠ "") then translated_text entry
            else original_text entry) ∧
         secondary_text view = original_text entry ∧
         ∃ sender_data,
           PyDict.get (sender entry) (users Scenario.hello_sent)
           = Some sender_data ∧
           sender_label view = display_name sender_data)
    (conversation_log (conversation_key "bob" "alice") Scenario.hello_sent)
    [Scenario.hello_for_bob].
Proof.
  apply (projection_by_authorship "bob" "alice" true Scenario.hello_sent
           (mark_conversation_seen "bob" "alice" Scenario.hello_sent)
           [Scenario.hello_for_bob]).
  vm_compute. reflexivity.
Defined.

Lemma send_updates_unread_counts_witness :
  seen_mark "alice" (conversation_key "alice" (Str.lower "Bob"))
    Scenario.hello_sent
  = len (conversation_log (conversation_key "alice" (Str.lower "Bob"))
           Scenario.hello_sent) ∧
  (unread_count "alice" (Str.lower "Bob") Scenario.hello_sent).1 = 0 ∧
  (unread_count (Str.lower "Bob") "alice" Scenario.hello_sent).1 = 1.
Proof.
  apply (send_updates_unread_counts Scenario.translating "alice" "Bob"
           (Some "Hello") Scenario.logged_in Scenario.hello_sent
           (Some "alice") Scenario.hello_for_alice).
  - apply reachable_logged_in.
  - vm_compute. reflexivity.
  - vm_compute. reflexivity.
Defined.

Lemma seen_mark_invariant_witness :
  let st := (save_message "alice" "bob" "Hello" "Bonjour" initial_state).2 in
  seen_inv st ∧
  ∀ st', core_step st st' ∨ http_step st st' →
         ∀ viewer key, seen_mark viewer key st ≤ seen_mark viewer key st'.
Proof.
  apply (seen_mark_invariant
           (save_message "alice" "bob" "Hello" "Bonjour" initial_state).2).
  apply rtc_once, step_save.
Defined.

Lemma serialize_requires_registered_partner_witness :
  serialize_messages "alice" "bob" true initial_state
  = (Raise (KeyError "bob"), initial_state) ∧
  is_Ok (serialize_messages "bob" "alice" true Scenario.hello_sent).1.
Proof.
  split.
  - apply (proj1 (serialize_requires_registered_partner
                    "alice" "bob" true initial_state)).
    reflexivity.
  - apply (proj2 (serialize_requires_registered_partner
                    "bob" "alice" true Scenario.hello_sent)).
    + vm_compute. eauto.
    + vm_compute. repeat constructor. eauto.
Defined.

(** * Further properties *)

(** ** Strings *)

Lemma str_lower_empty s : Str.lower s = "" ↔ s = "".
Proof. by destruct s. Qed.

(** ** What a served request has established *)

Ltac guards :=
  repeat match goal with
    | H : _ && _ = true |- _ => apply andb_true_iff in H as [? ?]
    | H : _ || _ = false |- _ => apply orb_false_iff in H as [? ?]
    | H : negb _ = false |- _ => apply negb_false_iff in H
    | H : negb _ = true |- _ => apply negb_true_iff in H
    | H : Str.truthy _ = true |- _ => apply str_truthy_true in H
    | H : Str.truthy _ = false |- _ => apply str_truthy_false in H
    | H : PyDict.mem _ _ = true |- _ => apply pydict_mem_true in H
    | H : PyDict.mem _ _ = false |- _ => apply pydict_mem_false in H
    | H : bool_decide _ = false |- _ => apply bool_decide_eq_false in H
    | H : bool_decide _ = true |- _ => apply bool_decide_eq_true in H
    end.

Ltac close_served :=
  match goal with
  | H : ?f ?st = (_, ?st') |- served ?st ?st' =>
      replace st' with (f st).2 by (by rewrite H)
  end.

Lemma login_served session is_post u l st :
  served st (login session is_post u l st).2.
Proof.
  unfold login, current_user, users_setitem. unfold_monad.
  repeat (case_match; simpl in *; simplify_eq; try apply served_nothing).
  all: guards.
  all: match goal with
       | H : ensure_user_seen ?k ?s = (_, ?s') |- _ =>
           replace s' with (ensure_user_seen k s).2 by (by rewrite H)
       end.
  all: simpl;
    match goal with
    | |- served _ (ensure_user_seen _ (with_users (PyDict.set _ ?d _) _)).2 =>
        apply (served_login st d); simpl;
        [done | first [by left | right; by eexists]]
    end.
Qed.

Lemma dashboard_served session q st :
  served st (dashboard session q st).2.
Proof.
  unfold dashboard, current_user, users_getitem. unfold_monad.
  repeat (case_match; simpl in *; simplify_eq; try apply served_nothing).
  all: guards; close_served; by apply served_dashboard.
Qed.

Lemma dashboard_data_served session q st :
  served st (dashboard_data session q st).2.
Proof.
  unfold dashboard_data, current_user, users_getitem. unfold_monad.
  repeat (case_match; simpl in *; simplify_eq; try apply served_nothing).
  all: guards; close_served; by apply served_dashboard.
Qed.

Lemma chat_served session partner st :
  served st (chat session partner st).2.
Proof.
  unfold chat, current_user, users_getitem. unfold_monad.
  repeat (case_match; simpl in *; simplify_eq; try apply served_nothing).
  all: guards; close_served; by apply served_list.
Qed.

Lemma chat_messages_served session partner st :
  served st (chat_messages session partner st).2.
Proof.
  unfold chat_messages, current_user, users_getitem. unfold_monad.
  repeat (case_match; simpl in *; simplify_eq; try apply served_nothing).
  all: guards; close_served; by apply served_list.
Qed.

Lemma settings_served session is_post l st :
  served st (settings session is_post l st).2.
Proof.
  unfold settings, current_user, users_getitem, users_setitem. unfold_monad.
  repeat (case_match; simpl in *; simplify_eq; try apply served_nothing).
  all: guards; by eapply served_settings.
Qed.

Lemma send_message_served gc session partner message st :
  served st (send_message gc session partner message st).2.
Proof.
  rewrite send_message_run.
  destruct session as [user|]; [|apply served_nothing].
  destruct (Str.truthy user && PyDict.mem user (users st)) eqn:Huser;
    [|apply served_nothing].
  simpl. destruct (negb _ || _) eqn:Hpartner; [apply served_nothing |].
  destruct (negb (Str.truthy _)) eqn:Htext; [apply served_nothing |].
  guards. rewrite send_message_body_run.
  destruct (PyDict.get (Str.lower partner) (users st)) as [partner_data|]
    eqn:Hp; [|apply served_nothing].
  destruct (translate_message _ _ _ _).1 as [translated|e];
    [|apply served_nothing].
  simpl.
  match goal with |- served _ ?x.2 =>
    assert (x.2 = (save_message user (Str.lower partner)
                     (Str.strip (default "" message)) translated st).2) as ->
  end.
  { destruct (serialize_messages _ _ _ _).1 as [views|e]; [|done].
    by destruct (last views). }
  apply served_send; [done | done | congruence | done].
Qed.

Lemma handle_served gc session req st :
  served st (handle gc session req st).2.
Proof.
  destruct req; simpl.
  - apply login_served.
  - apply served_nothing.
  - apply dashboard_served.
  - apply dashboard_data_served.
  - apply chat_served.
  - apply chat_messages_served.
  - apply send_message_served.
  - apply settings_served.
Qed.

Lemma http_step_served st st' : http_step st st' → served st st'.
Proof. intros (gc & session & req & <-). apply handle_served. Qed.


(** ** Entries of [user_seen] *)

Lemma ensure_user_seen_present u st :
  is_Some (user_seen st !! u) →
  ensure_user_seen u st = (default ∅ (user_seen st !! u), st).
Proof. intros [d Hd]. unfold ensure_user_seen. by rewrite Hd. Qed.

Lemma ensure_user_seen_entries u st k :
  is_Some (user_seen st !! k) →
  is_Some (user_seen (ensure_user_seen u st).2 !! k).
Proof.
  unfold ensure_user_seen. case_match; simpl; [done |].
  intros Hk. rewrite lookup_insert. by case_decide.
Qed.

Lemma mark_conversation_seen_entries viewer partner st k :
  is_Some (user_seen st !! k) →
  is_Some (user_seen (mark_conversation_seen viewer partner st) !! k).
Proof.
  intros Hk. unfold mark_conversation_seen.
  pose proof (ensure_user_seen_entries viewer st k Hk) as He.
  destruct (ensure_user_seen viewer st) as [seen st1]. simpl in *.
  rewrite lookup_insert. by case_decide.
Qed.

Lemma save_message_entries s r o t st k :
  is_Some (user_seen st !! k) →
  is_Some (user_seen (save_message s r o t st).2 !! k).
Proof.
  intros Hk. unfold save_message.
  match goal with |- context [ensure_user_seen s ?st1] =>
    pose proof (ensure_user_seen_entries s st1 k Hk) as He;
    destruct (ensure_user_seen s st1) as [seen st2] end.
  simpl in *. rewrite lookup_insert. by case_decide.
Qed.

Lemma save_message_sender_entry s r o t st :
  is_Some (user_seen (save_message s r o t st).2 !! s).
Proof.
  unfold save_message.
  match goal with |- context [ensure_user_seen s ?st1] =>
    destruct (ensure_user_seen s st1) as [seen st2] end.
  simpl. by rewrite lookup_insert_eq.
Qed.

Lemma unread_count_present u p st :
  is_Some (user_seen st !! u) → (unread_count u p st).2 = st.
Proof.
  intros Hu. rewrite unread_count_state.
  by rewrite ensure_user_seen_present.
Qed.

Lemma dashboard_matches_present user query_lower items st :
  is_Some (user_seen st !! user) →
  (dashboard_matches user query_lower items st).2 = st.
Proof.
  intros Hu. induction items as [|[username data] items IH]; simpl; [done |].
  case_bool_decide; [done |]. destruct (negb _ || _); [|done].
  unfold_monad.
  pose proof (unread_count_present user username st Hu) as Hst.
  destruct (unread_count user username st) as [unread st1].
  simpl in *. subst st1.
  by destruct (dashboard_matches user query_lower items st) as [[more|e] st2];
    simpl in *; subst.
Qed.

Lemma dashboard_recent_present user keys seen_partners st :
  is_Some (user_seen st !! user) →
  (dashboard_recent user keys seen_partners st).2 = st.
Proof.
  intros Hu. revert seen_partners.
  induction keys as [|key keys IH]; intros seen_partners; simpl; [done |].
  destruct (_ || _); [|apply IH]. unfold_monad.
  destruct (PyDict.mem _ (users st)) eqn:Hmem; [|apply IH]. simpl.
  destruct (negb _); [|apply IH].
  unfold users_getitem. destruct (PyDict.get _ (users st)); [|done].
  match goal with |- context [unread_count user ?other st] =>
    pose proof (unread_count_present user other st Hu) as Hst;
    destruct (unread_count user other st) as [unread st1] end.
  simpl in *. subst st1.
  match goal with |- context [dashboard_recent user keys ?seen st] =>
    specialize (IH seen);
    destruct (dashboard_recent user keys seen st) as [[more|e] st2] end;
    simpl in *; by subst.
Qed.

Lemma build_dashboard_payload_present user q st :
  is_Some (user_seen st !! user) →
  (build_dashboard_payload user q st).2 = st.
Proof.
  intros Hu. unfold build_dashboard_payload. unfold_monad.
  match goal with |- context [dashboard_matches user ?ql ?items st] =>
    pose proof (dashboard_matches_present user ql items st Hu) as H1;
    destruct (dashboard_matches user ql items st) as [[found|e] st1] end;
    simpl in *; subst st1; [|done].
  match goal with |- context [dashboard_recent user ?keys ∅ st] =>
    pose proof (dashboard_recent_present user keys ∅ st Hu) as H2;
    destruct (dashboard_recent user keys ∅ st) as [[recent|e] st2] end;
    simpl in *; by subst st2.
Qed.

(** ** What every request keeps *)

Lemma pydict_get_set_Some_inv {K V} `{EqDecision K}
    (k k' : K) (v v' : V) (d : PyDict.t K V) :
  PyDict.get k' (PyDict.set k v d) = Some v' →
  (k = k' ∧ v' = v) ∨ (k ≠ k' ∧ PyDict.get k' d = Some v').
Proof.
  rewrite pydict_get_set. case_decide; [|by right].
  intros [= <-]. by left.
Qed.

Lemma served_users_kept st st' u :
  served st st' →
  is_Some (PyDict.get u (users st)) → is_Some (PyDict.get u (users st')).
Proof.
  destruct 1 as [|data _ _|user old new_language _ _|user q _
                |viewer partner _ _ _|user partner text translated _ _ _ _];
    intros Hu.
  - done.
  - rewrite ensure_user_seen_users. simpl. by apply pydict_get_set_is_Some.
  - simpl. by apply pydict_get_set_is_Some.
  - destruct (build_dashboard_payload_frame user q st)
      as (payload & st' & -> & Husers & _). simpl. by rewrite Husers.
  - destruct (serialize_messages_state viewer partner true st) as [->| ->];
      [done |]. by rewrite mark_conversation_seen_users.
  - by rewrite save_message_users.
Qed.

Lemma log_prefix_frame st st' key :
  conversations st' = conversations st →
  conversation_log key st `prefix_of` conversation_log key st'.
Proof. intros Hc. by rewrite (conversation_log_ext key st st' Hc). Qed.

Lemma served_log_prefix st st' key :
  served st st' →
  conversation_log key st `prefix_of` conversation_log key st'.
Proof.
  destruct 1 as [|data _ _|user old new_language _ _|user q _
                |viewer partner _ _ _|user partner text translated _ _ _ _].
  - done.
  - apply log_prefix_frame. by rewrite ensure_user_seen_conversations.
  - done.
  - apply log_prefix_frame.
    by destruct (build_dashboard_payload_frame user q st)
      as (payload & st' & -> & _ & Hc & _).
  - apply log_prefix_frame.
    destruct (serialize_messages_state viewer partner true st) as [->| ->];
      [done |]. apply mark_conversation_seen_conversations.
  - rewrite save_message_log. case_decide; [|done]. by apply prefix_app_r.
Qed.

Lemma served_users_wellformed st st' :
  served st st' → users_wellformed st → users_wellformed st'.
Proof.
  destruct 1 as [|data Hname Hlang|user old new_language Hold Hnew|user q _
                |viewer partner _ _ _|user partner text translated _ _ _ _];
    intros Hwf.
  - done.
  - intros key record. rewrite ensure_user_seen_users. simpl.
    intros [[<- ->]|[_ Hget]]%pydict_get_set_Some_inv; [|by apply Hwf].
    split_and!; [done | done |].
    destruct Hlang as [Hlang|(old & Hold & ->)]; [done |].
    by apply (Hwf _ _ Hold).
  - intros key record. simpl.
    intros [[<- ->]|[_ Hget]]%pydict_get_set_Some_inv; [|by apply Hwf].
    simpl. destruct (Hwf _ _ Hold) as (Hkey & Hname & _). done.
  - destruct (build_dashboard_payload_frame user q st)
      as (payload & st' & -> & Husers & _).
    intros key record. simpl. rewrite Husers. apply Hwf.
  - destruct (serialize_messages_state viewer partner true st) as [->| ->];
      [done |].
    intros key record. rewrite mark_conversation_seen_users. apply Hwf.
  - intros key record. rewrite save_message_users. apply Hwf.
Qed.

Lemma messages_frame st st' :
  conversations st' = conversations st →
  (∀ u, is_Some (PyDict.get u (users st)) →
        is_Some (PyDict.get u (users st'))) →
  messages_wellformed st → messages_wellformed st'.
Proof.
  intros Hc Hu Hwf key log entry Hlog Hentry. rewrite Hc in Hlog.
  destruct (Hwf key log entry Hlog Hentry) as (? & ? & ? & ? & ?).
  split_and!; auto.
Qed.

Lemma served_messages_wellformed st st' :
  served st st' → messages_wellformed st → messages_wellformed st'.
Proof.
  intros Hserved. pose proof (λ u, served_users_kept st st' u Hserved) as Hu.
  destruct Hserved
    as [|data _ _|user old new_language _ _|user q _
       |viewer partner _ _ _|user partner text translated Huser Hp Hne Htext].
  - done.
  - apply messages_frame; [|done]. by rewrite ensure_user_seen_conversations.
  - by apply messages_frame.
  - apply messages_frame; [|done].
    by destruct (build_dashboard_payload_frame user q st)
      as (payload & st' & -> & _ & Hc & _).
  - apply messages_frame; [|done].
    destruct (serialize_messages_state viewer partner true st) as [->| ->];
      [done |]. apply mark_conversation_seen_conversations.
  - intros Hwf key log entry.
    rewrite save_message_conversations, pydict_get_set, !save_message_users.
    case_decide as Hkey.
    + subst key.
      intros [= <-] [Hin|Hin%list_elem_of_singleton]%elem_of_app.
      * apply conversation_log_elem in Hin as (log & Hlog & Hin).
        destruct (Hwf _ _ _ Hlog Hin) as (? & ? & ? & ? & ?).
        split_and!; auto.
      * subst entry. simpl. split_and!; auto.
    + intros Hlog Hentry.
      destruct (Hwf _ _ _ Hlog Hentry) as (? & ? & ? & ? & ?).
      split_and!; auto.
Qed.

Lemma served_seen_entries st st' :
  served st st' → seen_entries st → seen_entries st'.
Proof.
  destruct 1 as [|data _ _|user old new_language Hold _|user q Huser
                |viewer partner _ _ _|user partner text translated _ _ _ _];
    intros Hwf.
  - done.
  - intros key. rewrite ensure_user_seen_users. simpl.
    rewrite pydict_get_set. case_decide as Hkey.
    + intros _. subst key. rewrite ensure_user_seen_lookup. by eexists.
    + intros Hreg. by apply ensure_user_seen_entries, Hwf.
  - intros key. simpl. rewrite pydict_get_set. case_decide as Hkey.
    + intros _. subst key. apply Hwf. by eexists.
    + apply Hwf.
  - by rewrite build_dashboard_payload_present by by apply Hwf.
  - destruct (serialize_messages_state viewer partner true st) as [->| ->];
      [done |].
    intros key. rewrite mark_conversation_seen_users. intros Hreg.
    by apply mark_conversation_seen_entries, Hwf.
  - intros key. rewrite save_message_users. intros Hreg.
    by apply save_message_entries, Hwf.
Qed.

Lemma reachable_ind_served (P : State → Prop) :
  P initial_state →
  (∀ st st', reachable st → P st → served st st' → P st') →
  ∀ st, reachable st → P st.
Proof.
  intros Hinit Hstep. unfold reachable.
  apply (rtc_ind_r P initial_state); [done |].
  intros st1 st2 Hreach Hs HP.
  by apply (Hstep st1 st2), http_step_served.
Qed.

Lemma reachable_wellformed st :
  reachable st →
  users_wellformed st ∧ messages_wellformed st ∧ seen_entries st.
Proof.
  revert st. apply reachable_ind_served.
  - split_and!; [by intros ? ? | by intros ? ? ? | by intros ? [? ?]].
  - intros st st' _ (Hu & Hm & Hs) Hserved. split_and!.
    + by apply (served_users_wellformed st).
    + by apply (served_messages_wellformed st).
    + by apply (served_seen_entries st).
Qed.

(** ** Addressing and the store *)

Lemma conversation_key_sorted a b :
  String.leb (conversation_key a b).1 (conversation_key a b).2 = true.
Proof.
  unfold conversation_key, String.ltb, String.leb.
  destruct (String.compare b a) eqn:Hba; simpl.
  - rewrite String.compare_antisym, Hba. done.
  - by rewrite Hba.
  - rewrite String.compare_antisym, Hba. done.
Qed.

Lemma conversation_key_inj a b c d :
  conversation_key a b = conversation_key c d ↔
  (a = c ∧ b = d) ∨ (a = d ∧ b = c).
Proof.
  split.
  - unfold conversation_key.
    destruct (String.ltb b a), (String.ltb d c); intros [= -> ->]; auto.
  - intros [[-> ->]|[-> ->]]; [done | apply conversation_key_sym].
Qed.

(** X1: the canonical key holds the two participants in ascending order,
    and two pairs have the same key exactly when they are the same pair,
    in the same or the opposite order: conversations are neither split
    nor merged. *)
Theorem conversation_key_identifies_pair (a b c d : string) :
  String.leb (conversation_key a b).1 (conversation_key a b).2 = true ∧
  (conversation_key a b = conversation_key c d ↔
   (a = c ∧ b = d) ∨ (a = d ∧ b = c)).
Proof.
  split; [apply conversation_key_sorted | apply conversation_key_inj].
Qed.

(** X2: [save_message] returns the entry it was given, appends it to the
    log of the canonical key and to no other log, sets the sender's seen
    mark for that key to the new length and no other mark, and leaves
    [users] alone. *)
Theorem save_message_appends
    (s r o t : string) (st : State) :
  let key := conversation_key s r in
  let st' := (save_message s r o t st).2 in
  (save_message s r o t st).1 = mkMessage s r o t ∧
  users st' = users st ∧
  (∀ k, conversation_log k st'
        = if decide (k = key) then conversation_log k st ++ [mkMessage s r o t]
          else conversation_log k st) ∧
  len (conversation_log key st') = len (conversation_log key st) + 1 ∧
  (∀ v k, seen_mark v k st'
          = if decide (v = s ∧ k = key) then len (conversation_log key st')
            else seen_mark v k st).
Proof.
  simpl. split_and!.
  - unfold save_message. by destruct (ensure_user_seen _ _).
  - apply save_message_users.
  - intros k. apply save_message_log.
  - rewrite save_message_log, decide_True by done.
    unfold len. rewrite length_app. simpl. lia.
  - intros v k. rewrite save_message_mark, save_message_log.
    rewrite (decide_True (P := conversation_key s r = conversation_key s r))
      by done.
    case_decide; [|done]. unfold len. rewrite length_app. simpl. lia.
Qed.

(** X3: serving a request never removes a user and never removes,
    reorders or rewrites a stored message: every log before the request
    is a prefix of the log after it. *)
Theorem requests_only_append (st st' : State) :
  http_step st st' →
  (∀ u, is_Some (PyDict.get u (users st)) →
        is_Some (PyDict.get u (users st'))) ∧
  (∀ key, conversation_log key st `prefix_of` conversation_log key st').
Proof.
  intros Hstep%http_step_served. split.
  - intros u. by apply served_users_kept.
  - intros key. by apply served_log_prefix.
Qed.

(** X4: in every reachable state each stored message lies under the
    canonical key of its sender and recipient, the two are distinct
    registered users, and its original text is not empty. *)
Theorem stored_messages_wellformed (st : State) :
  reachable st → messages_wellformed st.
Proof. intros Hreach. by apply reachable_wellformed. Qed.


(** ** Guards of the handlers *)

Lemma current_user_unauthenticated session st :
  unauthenticated session st → current_user session st = (Ok (None, None), st).
Proof.
  unfold unauthenticated, current_user, gets.
  destruct session as [username|]; [|done]. by intros ->.
Qed.

Lemma current_user_authenticated user st :
  user ≠ "" → is_Some (PyDict.get user (users st)) →
  current_user (Some user) st = (Ok (Some user, Some user), st).
Proof.
  intros Hne%str_truthy_true Hreg%pydict_mem_true.
  unfold current_user, gets. by rewrite Hne, Hreg.
Qed.

(** X6: without a valid session every request other than a login is
    turned away, to the login page or with status 401, the cookie's
    [username] is dropped, and no dictionary changes. *)
Theorem unauthenticated_requests_change_nothing
    (generate_content : Provider) (session : Session) (req : Request)
    (st : State) :
  unauthenticated session st →
  (∀ is_post u l, req ≠ ReqLogin is_post u l) →
  ∃ response,
    handle generate_content session req st = (Ok (None, response), st) ∧
    (response = Redirect "login" ∨
     response = JsonError "Not authenticated" 401).
Proof.
  intros Hun%current_user_unauthenticated Hreq.
  destruct req; simpl;
    unfold logout, dashboard, dashboard_data, chat, chat_messages,
      send_message, settings;
    unfold_monad; rewrite ?Hun; eauto.
  by destruct (Hreq is_post form_username form_language).
Qed.

(** X7: a logged-in user who names an unknown partner, or themselves, gets
    the dashboard redirect from [chat] and status 400 from
    [chat_messages] and [send_message]; nothing is listed, translated,
    stored or marked. *)
Theorem invalid_partner_rejected
    (generate_content : Provider) (user partner : string)
    (message : option string) (st : State) :
  user ≠ "" →
  is_Some (PyDict.get user (users st)) →
  PyDict.get (Str.lower partner) (users st) = None ∨ Str.lower partner = user →
  chat (Some user) partner st
  = (Ok (Some user, Redirect "dashboard"), st) ∧
  chat_messages (Some user) partner st
  = (Ok (Some user, JsonError "Invalid conversation" 400), st) ∧
  send_message generate_content (Some user) partner message st
  = (Ok (Some user, JsonError "Invalid conversation" 400), st).
Proof.
  intros Hne Hreg Hpartner.
  pose proof (current_user_authenticated user st Hne Hreg) as Hcu.
  assert (negb (PyDict.mem (Str.lower partner) (users st))
          || bool_decide (Str.lower partner = user) = true) as Hguard.
  { destruct Hpartner as [Hnone%pydict_mem_false| ->].
    - by rewrite Hnone.
    - rewrite bool_decide_eq_true_2 by done. apply orb_true_r. }
  unfold chat, chat_messages, send_message. unfold_monad.
  by rewrite Hcu, Hguard.
Qed.




Lemma current_user_cases session st :
  current_user session st = (Ok (None, None), st) ∨
  ∃ user,
    session = Some user ∧ user ≠ "" ∧ is_Some (PyDict.get user (users st)) ∧
    current_user session st = (Ok (Some user, Some user), st).
Proof.
  unfold current_user, gets. destruct session as [user|]; [|by left].
  destruct (Str.truthy user && PyDict.mem user (users st)) eqn:Huser;
    [|by left].
  apply andb_true_iff in Huser as [Hne%str_truthy_true Hreg%pydict_mem_true].
  right. by exists user.
Qed.

Lemma users_getitem_registered key st :
  is_Some (PyDict.get key (users st)) →
  ∃ data, users_getitem key st = (Ok data, st) ∧
          PyDict.get key (users st) = Some data.
Proof. intros [data Hdata]. unfold users_getitem. rewrite Hdata. eauto. Qed.

Lemma serialize_messages_reachable viewer partner mark_seen st :
  reachable st →
  is_Some (PyDict.get partner (users st)) →
  ∃ views,
    serialize_messages viewer partner mark_seen st
    = (Ok views,
       if mark_seen then mark_conversation_seen viewer partner st else st).
Proof.
  intros Hreach Hpartner.
  destruct (serialize_messages_is_Ok viewer partner mark_seen st)
    as [views Hviews]; [done | |].
  - apply Forall_forall. intros entry Hentry.
    apply conversation_log_elem in Hentry as (log & Hlog & Hentry).
    by eapply (reachable_senders st).
  - exists views. rewrite serialize_messages_run in Hviews |- *.
    destruct (PyDict.get partner (users st)); [|done].
    destruct (view_entries _ _ _ _).1; [|done]. simpl in Hviews. congruence.
Qed.


(** ** Reading *)

Lemma mark_conversation_seen_unread viewer partner st :
  (unread_count viewer partner
     (mark_conversation_seen viewer partner st)).1 = 0.
Proof.
  rewrite unread_count_value, mark_conversation_seen_mark.
  rewrite decide_True by done.
  rewrite (conversation_log_ext _ st)
    by apply mark_conversation_seen_conversations.
  lia.
Qed.

(** X11: from a reachable state the two dashboard requests change nothing
    at all, not even [user_seen]: the viewer they accept is registered
    and has had an entry there since login. *)
Theorem dashboard_requests_change_nothing
    (session : Session) (q : string) (st : State) :
  reachable st →
  (dashboard session q st).2 = st ∧ (dashboard_data session q st).2 = st.
Proof.
  intros Hreach.
  destruct (reachable_wellformed st Hreach) as (_ & _ & Hseen).
  unfold dashboard, dashboard_data. unfold_monad.
  destruct (current_user_cases session st)
    as [->|(user & -> & Hne & Hreg & ->)]; [done |].
  pose proof (build_dashboard_payload_present user q st (Hseen user Hreg))
    as Hst.
  destruct (build_dashboard_payload_frame user q st)
    as (payload & st' & Hrun & _).
  rewrite Hrun in Hst |- *. simpl in Hst. subst st'.
  by destruct (users_getitem_registered user st Hreg) as (me & -> & _).
Qed.

(** X12: a listing that succeeds returns one view per stored message and,
    when asked to mark, leaves the viewer with nothing unread in that
    conversation while users, logs and all other seen marks stay as they
    were; a listing that is not asked to mark, or that raises, changes
    nothing. *)
Theorem listing_marks_seen
    (viewer partner : string) (mark_seen : bool) (st : State) :
  let key := conversation_key viewer partner in
  let run := serialize_messages viewer partner mark_seen st in
  match run.1 with
  | Ok views =>
      length views = length (conversation_log key st) ∧
      users run.2 = users st ∧
      conversations run.2 = conversations st ∧
      if mark_seen then
        (unread_count viewer partner run.2).1 = 0 ∧
        ∀ v k, seen_mark v k run.2
               = if decide (v = viewer ∧ k = key)
                 then len (conversation_log key st)
                 else seen_mark v k st
      else run.2 = st
  | Raise e =>
      run.2 = st ∧
      (e = KeyError partner ∨
       ∃ entry, entry ∈ conversation_log key st ∧ sender entry ≠ viewer ∧
                PyDict.get (sender entry) (users st) = None ∧
                e = KeyError (sender entry))
  end.
Proof.
  simpl.
  destruct (serialize_messages viewer partner mark_seen st) as [r st']
    eqn:Hrun. simpl.
  destruct r as [views|e].
  - pose proof (serialize_messages_views _ _ _ _ _ _ Hrun) as Hlen.
    rewrite serialize_messages_run in Hrun.
    destruct (PyDict.get partner (users st)); [|done].
    destruct (view_entries _ _ _ _).1; [|done].
    injection Hrun as _ <-. split; [done |].
    destruct mark_seen; [|done].
    rewrite mark_conversation_seen_users, mark_conversation_seen_conversations.
    split_and!; [done | done | | apply mark_conversation_seen_mark].
    apply (mark_conversation_seen_unread viewer partner st).
  - rewrite serialize_messages_run in Hrun.
    destruct (PyDict.get partner (users st)) as [partner_data|];
      [|injection Hrun as <- <-; by auto].
    destruct (view_entries _ _ _ _).1 as [views|e'] eqn:Hviews; [done |].
    injection Hrun as <- <-. split; [done |]. right.
    clear -Hviews. revert Hviews.
    induction (conversation_log (conversation_key viewer partner) st)
      as [|entry raw IH]; [done |].
    rewrite view_entries_cons, view_entry_run. simpl.
    case_decide as Hself.
    + destruct (view_entries _ _ raw st).1; [done |].
      intros [= ->]. destruct IH as (entry' & Hin & ?); [done |].
      exists entry'. split; [by apply list_elem_of_further | done].
    + destruct (PyDict.get (sender entry) (users st)) eqn:Hsender.
      * destruct (view_entries _ _ raw st).1; [done |].
        intros [= ->]. destruct IH as (entry' & Hin & ?); [done |].
        exists entry'. split; [by apply list_elem_of_further | done].
      * intros [= <-]. exists entry.
        split; [apply list_elem_of_here | done].
Qed.

(** ** Unread messages *)

Lemma unread_not_own_frame st st' :
  conversations st' = conversations st →
  (∀ v k, seen_mark v k st' = seen_mark v k st) →
  unread_not_own st → unread_not_own st'.
Proof.
  intros Hc Hm Hinv viewer key i entry.
  rewrite (conversation_log_ext key st st' Hc), Hm. apply Hinv.
Qed.

Lemma mark_conversation_seen_not_own viewer partner st :
  unread_not_own st →
  unread_not_own (mark_conversation_seen viewer partner st).
Proof.
  intros Hinv v key i entry.
  rewrite (conversation_log_ext key st)
    by apply mark_conversation_seen_conversations.
  rewrite mark_conversation_seen_mark. case_decide as Hvk; [|apply Hinv].
  destruct Hvk as [-> ->]. intros Hi%lookup_lt_Some Hle.
  unfold len in Hle. lia.
Qed.

Lemma save_message_not_own s r o t st :
  unread_not_own st → unread_not_own (save_message s r o t st).2.
Proof.
  intros Hinv v key i entry.
  rewrite save_message_log, save_message_mark.
  destruct (decide (key = conversation_key s r)) as [->|Hkey].
  - destruct (decide (v = s)) as [->|Hv].
    + rewrite decide_True by done.
      intros Hi%lookup_lt_Some Hle. rewrite length_app in Hi. simpl in Hi.
      unfold len in Hle. lia.
    + rewrite decide_False by tauto.
      intros [Hi|[_ Hi]]%lookup_app_Some; [by apply Hinv |].
      intros _. destruct (i - _)%nat; [|done].
      injection Hi as <-. simpl. congruence.
  - rewrite decide_False by tauto. apply Hinv.
Qed.

Lemma served_not_own st st' :
  served st st' → unread_not_own st → unread_not_own st'.
Proof.
  destruct 1 as [|data _ _|user old new_language _ _|user q _
                |viewer partner _ _ _|user partner text translated _ _ _ _].
  - done.
  - apply unread_not_own_frame.
    + by rewrite ensure_user_seen_conversations.
    + intros v k. by rewrite ensure_user_seen_mark.
  - by apply unread_not_own_frame.
  - destruct (build_dashboard_payload_frame user q st)
      as (payload & st' & -> & _ & Hc & Hm).
    by apply unread_not_own_frame.
  - destruct (serialize_messages_state viewer partner true st) as [->| ->];
      [done |]. apply mark_conversation_seen_not_own.
  - apply save_message_not_own.
Qed.

Lemma reachable_not_own st : reachable st → unread_not_own st.
Proof.
  revert st. apply reachable_ind_served.
  - by intros v key i entry.
  - intros st st' _ Hinv Hserved. by apply (served_not_own st).
Qed.

(** X13: in a reachable state every message a viewer has not yet seen in
    a conversation with a partner was sent by that partner; none of the
    viewer's own messages counts as unread. *)
Theorem unread_messages_are_the_partners
    (viewer partner : string) (st : State) (i : nat) (entry : Message) :
  reachable st →
  conversation_log (conversation_key viewer partner) st !! i = Some entry →
  seen_mark viewer (conversation_key viewer partner) st ≤ Z.of_nat i →
  sender entry = partner ∧ recipient entry = viewer.
Proof.
  intros Hreach Hentry Hunseen.
  pose proof (reachable_not_own st Hreach _ _ _ _ Hentry Hunseen) as Hsender.
  destruct (reachable_wellformed st Hreach) as (_ & Hmsg & _).
  assert (entry ∈ conversation_log (conversation_key viewer partner) st)
    as Hin by (by eapply list_elem_of_lookup_2).
  apply conversation_log_elem in Hin as (log & Hlog & Hin).
  destruct (Hmsg _ _ _ Hlog Hin) as (Hkey & _).
  apply conversation_key_inj in Hkey as [[-> ->]|[-> ->]]; done.
Qed.

(** X14: after a send that went through from a reachable state the
    recipient has exactly one more unread message than before, the sender
    has none, and the unread counts of every other conversation are what
    they were. *)
Theorem send_adds_one_unread
    (generate_content : Provider) (a partner : string)
    (message : option string) (st st' : State) (session' : Session)
    (view : ViewEntry) :
  let b := Str.lower partner in
  reachable st →
  send_message generate_content (Some a) partner message st
  = (Ok (session', JsonMessage view), st') →
  (unread_count b a st').1 = (unread_count b a st).1 + 1 ∧
  (unread_count a b st').1 = 0 ∧
  ∀ v p, conversation_key v p ≠ conversation_key a b →
         (unread_count v p st').1 = (unread_count v p st).1.
Proof.
  intros b Hreach Hsend.
  apply send_message_JsonMessage_inv in Hsend
    as (user & translated & [= <-] & Hne & ->).
  fold b in Hne |- *.
  pose proof (reachable_seen st Hreach b (conversation_key a b)) as Hinv.
  rewrite !unread_count_value, (conversation_key_sym b a).
  rewrite !save_message_mark, save_message_log.
  rewrite (decide_False (P := b = a ∧ _)) by tauto.
  rewrite !decide_True by done.
  split_and!.
  - unfold len in *. rewrite length_app. simpl length. lia.
  - unfold len in *. rewrite length_app. simpl length. lia.
  - intros v p Hother. rewrite !unread_count_value.
    rewrite save_message_mark, save_message_log.
    by rewrite !decide_False by tauto.
Qed.

(** X15: from a reachable state a logged-in user who opens or polls the
    conversation with another registered user gets one view per stored
    message and afterwards has nothing unread in it. *)
Theorem chat_clears_unread (user partner : string) (st : State) :
  let partner_key := Str.lower partner in
  let st' := mark_conversation_seen user partner_key st in
  reachable st →
  user ≠ "" →
  is_Some (PyDict.get user (users st)) →
  is_Some (PyDict.get partner_key (users st)) →
  partner_key ≠ user →
  ∃ views me them,
    chat_messages (Some user) partner st
    = (Ok (Some user, JsonMessages views), st') ∧
    chat (Some user) partner st
    = (Ok (Some user, RenderChat me partner_key them views), st') ∧
    PyDict.get user (users st) = Some me ∧
    PyDict.get partner_key (users st) = Some them ∧
    length views
    = length (conversation_log (conversation_key user partner_key) st) ∧
    (unread_count user partner_key st').1 = 0.
Proof.
  intros partner_key st' Hreach Hne Hreg Hpartner Hdiff.
  pose proof (current_user_authenticated user st Hne Hreg) as Hcu.
  destruct (serialize_messages_reachable user partner_key true st)
    as [views Hrun]; [done | done |].
  fold st' in Hrun.
  destruct (users_getitem_registered user st')
    as (me & Hme & Hme');
    [by unfold st'; rewrite mark_conversation_seen_users |].
  destruct (users_getitem_registered partner_key st')
    as (them & Hthem & Hthem');
    [by unfold st'; rewrite mark_conversation_seen_users |].
  exists views, me, them.
  assert (negb (PyDict.mem partner_key (users st))
          || bool_decide (partner_key = user) = false) as Hguard.
  { apply pydict_mem_true in Hpartner. rewrite Hpartner.
    by rewrite bool_decide_eq_false_2. }
  unfold st' in Hme', Hthem'.
  rewrite mark_conversation_seen_users in Hme', Hthem'.
  split_and!; try done.
  - unfold chat_messages. unfold_monad. fold partner_key.
    by rewrite Hcu, Hguard, Hrun.
  - unfold chat. unfold_monad. fold partner_key.
    by rewrite Hcu, Hguard, Hrun, Hme, Hthem.
  - by apply serialize_messages_views in Hrun.
  - apply mark_conversation_seen_unread.
Qed.

(** ** Sessions and the user directory *)

Lemma login_session session is_post fu fl st u response st' :
  login session is_post fu fl st = (Ok (Some u, response), st') →
  u ≠ "" ∧ is_Some (PyDict.get u (users st')).
Proof.
  unfold login, users_setitem. unfold_monad.
  destruct (current_user_cases session st)
    as [->|(user & -> & Hne & Hreg & ->)].
  - repeat (case_match; simpl in *; simplify_eq); guards.
    all: intros; simplify_eq.
    all: match goal with
         | H : ensure_user_seen ?k ?s = (_, ?s') |- _ =>
             pose proof (ensure_user_seen_users k s) as Hu;
             rewrite H in Hu; simpl in Hu; rewrite Hu
         end.
    all: rewrite pydict_get_set_eq; split; [|by eexists].
    all: by rewrite str_lower_empty.
  - by intros [= <- _ <-].
Qed.

Lemma other_session gc session req st u response st' :
  (∀ is_post fu fl, req ≠ ReqLogin is_post fu fl) →
  handle gc session req st = (Ok (Some u, response), st') →
  u ≠ "" ∧ is_Some (PyDict.get u (users st)).
Proof.
  intros Hreq.
  destruct req; simpl;
    unfold logout, dashboard, dashboard_data, chat, chat_messages,
      send_message, settings;
    unfold_monad.
  1: by destruct (Hreq is_post form_username form_language).
  1: by intros [= ].
  all: destruct (current_user_cases session st)
         as [->|(user & -> & Hne & Hreg & ->)]; [by intros [= ] |].
  all: repeat (case_match; simpl in *; simplify_eq); by intros [= <- _ _].
Qed.

(** X16: whenever a request is answered with a session for some user,
    that user is registered in the resulting state and the name is not
    empty, so the next request with this session is accepted by
    [current_user]. *)
Theorem issued_sessions_are_valid
    (generate_content : Provider) (session : Session) (req : Request)
    (st st' : State) (u : string) (response : Response) :
  handle generate_content session req st = (Ok (Some u, response), st') →
  current_user (Some u) st' = (Ok (Some u, Some u), st').
Proof.
  intros Hrun.
  assert (u ≠ "" ∧ is_Some (PyDict.get u (users st'))) as [Hne Hreg];
    [|by apply current_user_authenticated].
  assert (served st st') as Hserved.
  { replace st' with (handle generate_content session req st).2
      by (by rewrite Hrun).
    apply handle_served. }
  destruct req; [by apply login_session in Hrun | ..].
  all: apply other_session in Hrun as [Hne Hreg]; [|done].
  all: split; [done | by apply (served_users_kept st st')].
Qed.





(** ** The dashboard's lists *)

Section sort_facts.
Context {A : Type} (key : A → string).






End sort_facts.






(** ** The further properties at the scenario *)

Lemma requests_only_append_witness :
  (∀ u, is_Some (PyDict.get u (users Scenario.logged_in)) →
        is_Some (PyDict.get u (users Scenario.hello_sent))) ∧
  (∀ key, conversation_log key Scenario.logged_in
          `prefix_of` conversation_log key Scenario.hello_sent).
Proof.
  apply (requests_only_append Scenario.logged_in Scenario.hello_sent).
  by exists Scenario.translating, (Some "alice"),
       (ReqSendMessage "Bob" (Some "Hello")).
Defined.

Lemma stored_messages_wellformed_witness :
  messages_wellformed Scenario.hello_sent.
Proof.
  apply (stored_messages_wellformed Scenario.hello_sent).
  apply reachable_hello_sent.
Defined.


Lemma unauthenticated_requests_change_nothing_witness :
  ∃ response,
    handle Scenario.translating (Some "mallory")
      (ReqSendMessage "Bob" (Some "Hello")) Scenario.logged_in
    = (Ok (None, response), Scenario.logged_in) ∧
    (response = Redirect "login" ∨
     response = JsonError "Not authenticated" 401).
Proof.
  apply (unauthenticated_requests_change_nothing Scenario.translating
           (Some "mallory") (ReqSendMessage "Bob" (Some "Hello"))
           Scenario.logged_in).
  - vm_compute. reflexivity.
  - discriminate.
Defined.

Lemma invalid_partner_rejected_witness :
  chat (Some "alice") "Carol" Scenario.logged_in
  = (Ok (Some "alice", Redirect "dashboard"), Scenario.logged_in) ∧
  chat_messages (Some "alice") "Carol" Scenario.logged_in
  = (Ok (Some "alice", JsonError "Invalid conversation" 400),
     Scenario.logged_in) ∧
  send_message Scenario.translating (Some "alice") "Carol" (Some "Hello")
    Scenario.logged_in
  = (Ok (Some "alice", JsonError "Invalid conversation" 400),
     Scenario.logged_in).
Proof.
  apply (invalid_partner_rejected Scenario.translating "alice" "Carol"
           (Some "Hello") Scenario.logged_in).
  - discriminate.
  - vm_compute. eauto.
  - left. vm_compute. reflexivity.
Defined.




Lemma dashboard_requests_change_nothing_witness :
  (dashboard (Some "bob") "al" Scenario.hello_sent).2 = Scenario.hello_sent ∧
  (dashboard_data (Some "bob") "al" Scenario.hello_sent).2
  = Scenario.hello_sent.
Proof.
  apply (dashboard_requests_change_nothing (Some "bob") "al"
           Scenario.hello_sent).
  apply reachable_hello_sent.
Defined.

Lemma unread_messages_are_the_partners_witness :
  sender (mkMessage "alice" "bob" "Hello" "Bonjour") = "alice" ∧
  recipient (mkMessage "alice" "bob" "Hello" "Bonjour") = "bob".
Proof.
  apply (unread_messages_are_the_partners "bob" "alice" Scenario.hello_sent
           0%nat (mkMessage "alice" "bob" "Hello" "Bonjour")).
  - apply reachable_hello_sent.
  - vm_compute. reflexivity.
  - vm_compute. discriminate.
Defined.

Lemma send_adds_one_unread_witness :
  (unread_count (Str.lower "Bob") "alice" Scenario.hello_sent).1
  = (unread_count (Str.lower "Bob") "alice" Scenario.logged_in).1 + 1 ∧
  (unread_count "alice" (Str.lower "Bob") Scenario.hello_sent).1 = 0 ∧
  ∀ v p,
    conversation_key v p ≠ conversation_key "alice" (Str.lower "Bob") →
    (unread_count v p Scenario.hello_sent).1
    = (unread_count v p Scenario.logged_in).1.
Proof.
  apply (send_adds_one_unread Scenario.translating "alice" "Bob"
           (Some "Hello") Scenario.logged_in Scenario.hello_sent
           (Some "alice") Scenario.hello_for_alice).
  - apply reachable_logged_in.
  - vm_compute. reflexivity.
Defined.

Lemma chat_clears_unread_witness :
  ∃ views me them,
    chat_messages (Some "bob") "Alice" Scenario.hello_sent
    = (Ok (Some "bob", JsonMessages views),
       mark_conversation_seen "bob" (Str.lower "Alice") Scenario.hello_sent) ∧
    chat (Some "bob") "Alice" Scenario.hello_sent
    = (Ok (Some "bob", RenderChat me (Str.lower "Alice") them views),
       mark_conversation_seen "bob" (Str.lower "Alice") Scenario.hello_sent) ∧
    PyDict.get "bob" (users Scenario.hello_sent) = Some me ∧
    PyDict.get (Str.lower "Alice") (users Scenario.hello_sent) = Some them ∧
    length views
    = length (conversation_log (conversation_key "bob" (Str.lower "Alice"))
                Scenario.hello_sent) ∧
    (unread_count "bob" (Str.lower "Alice")
       (mark_conversation_seen "bob" (Str.lower "Alice")
          Scenario.hello_sent)).1 = 0.
Proof.
  apply (chat_clears_unread "bob" "Alice" Scenario.hello_sent).
  - apply reachable_hello_sent.
  - discriminate.
  - vm_compute. eauto.
  - vm_compute. eauto.
  - vm_compute. discriminate.
Defined.

Lemma issued_sessions_are_valid_witness :
  let st' :=
    (handle Scenario.translating None (ReqLogin true " Alice " "English")
       initial_state).2 in
  current_user (Some "alice") st' = (Ok (Some "alice", Some "alice"), st').
Proof.
  apply (issued_sessions_are_valid Scenario.translating None
           (ReqLogin true " Alice " "English") initial_state _ "alice"
           (Redirect "dashboard")).
  vm_compute. reflexivity.
Defined.


